(** * Scibble: the room-creation page (src/pages/RoomCreationPage.tsx)

    A shallow embedding of the [RoomCreationPage] React component: its
    local state, the two [useEffect] bodies, the input, validation, creation
    and clipboard handlers, and the guards the rendered markup puts in front
    of them.  The component is single threaded and event driven, so every
    handler is a function from the values captured by the current render to
    the next component state and the list of external calls it made. *)

From stdpp Require Import gmap strings list fin_maps.
From Stdlib Require Import ZArith Ascii String.
From Stdlib Require DecimalString DecimalPos.

Local Open Scope string_scope.
Local Open Scope Z_scope.
Local Open Scope list_scope.

(** ** JavaScript values *)

(** The numbers this page handles come from integer literals and from
    [parseInt], so a number is an integer or [NaN].  ([parseInt] yields
    [Infinity] on inputs beyond the double range; such a value is kept as the
    integer it denotes, which compares the same way against the small bounds
    used below.) *)
Inductive jsnum : Type :=
  | NaN
  | Num (z : Z).

(** Values stored under a key of the settings object or of the payload. *)
Inductive jsval : Type :=
  | VBool (b : bool)
  | VNum (n : jsnum)
  | VStr (s : string)
  | VArr (l : list string).

#[global] Instance jsnum_eq_dec : EqDecision jsnum.
Proof. solve_decision. Defined.

#[global] Instance jsval_eq_dec : EqDecision jsval.
Proof. solve_decision. Defined.

Module JS.

(** [a < k] and [a > k] on numbers: every comparison with [NaN] is false. *)
Definition lt (a : jsnum) (k : Z) : bool :=
  match a with
  | NaN => false
  | Num z => z <? k
  end.

Definition gt (a : jsnum) (k : Z) : bool :=
  match a with
  | NaN => false
  | Num z => k <? z
  end.

(** [Boolean(s)] on a string: only the empty string is falsy. *)
Definition Boolean (s : string) : bool :=
  match s with
  | EmptyString => false
  | String _ _ => true
  end.

(** Truthiness of a [string | null | undefined] value, as in
    [if (errors[name])] and [if (gameState.roomId && ...)]. *)
Definition truthy (o : option string) : bool :=
  match o with
  | None => false
  | Some s => Boolean s
  end.

(** White space and line terminators among the code units below 256
    (TAB, LF, VT, FF, CR, SP, NBSP): what [trim] and [parseInt] strip. *)
Definition is_space (c : ascii) : bool :=
  let n := nat_of_ascii c in
  ((9 <=? n)%nat && (n <=? 13)%nat) || (n =? 32)%nat || (n =? 160)%nat.

Fixpoint trimStart (s : string) : string :=
  match s with
  | EmptyString => EmptyString
  | String c r => if is_space c then trimStart r else s
  end.

Fixpoint trimEnd (s : string) : string :=
  match s with
  | EmptyString => EmptyString
  | String c r =>
      match trimEnd r with
      | EmptyString => if is_space c then EmptyString else String c EmptyString
      | t => String c t
      end
  end.

(** [s.trim()] *)
Definition trim (s : string) : string := trimEnd (trimStart s).

(** [s.split(sep)] for a one-character separator: never the empty list,
    ["".split(",")] is [[""]]. *)
Fixpoint split (sep : ascii) (s : string) : list string :=
  match s with
  | EmptyString => [EmptyString]
  | String c r =>
      if Ascii.eqb c sep then EmptyString :: split sep r
      else match split sep r with
           | p :: ps => String c p :: ps
           | [] => [String c EmptyString]
           end
  end.

(** [sep]-joined concatenation, [ws.join(sep)]. *)
Fixpoint join (sep : string) (ws : list string) : string :=
  match ws with
  | [] => EmptyString
  | [w] => w
  | w :: ws' => w +:+ sep +:+ join sep ws'
  end.

(** [s.startsWith(pre)] *)
Fixpoint startsWith (pre s : string) : bool :=
  match pre, s with
  | EmptyString, _ => true
  | String a p, String b r => Ascii.eqb a b && startsWith p r
  | String _ _, EmptyString => false
  end.

(** Value of a digit or letter in [parseInt]. *)
Definition digit_value (c : ascii) : option Z :=
  let n := Z.of_nat (nat_of_ascii c) in
  if (48 <=? n) && (n <=? 57) then Some (n - 48)
  else if (97 <=? n) && (n <=? 122) then Some (n - 87)
  else if (65 <=? n) && (n <=? 90) then Some (n - 55)
  else None.

(** The longest prefix of digits below [radix], read in that radix;
    [acc] is [None] until a first digit has been read. *)
Fixpoint parse_digits (radix : Z) (s : string) (acc : option Z) : option Z :=
  match s with
  | EmptyString => acc
  | String c r =>
      match digit_value c with
      | Some d =>
          if d <? radix
          then parse_digits radix r (Some (radix * default 0 acc + d))
          else acc
      | None => acc
      end
  end.

(** [parseInt(s)] without a radix argument: leading white space, an
    optional sign, an optional [0x]/[0X] prefix selecting radix 16, then
    the digits; [NaN] when no digit follows. *)
Definition parseInt (s : string) : jsnum :=
  let s1 := trimStart s in
  let '(sign, s2) :=
    match s1 with
    | String "-" r => (-1, r)
    | String "+" r => (1, r)
    | _ => (1, s1)
    end in
  let '(radix, s3) :=
    match s2 with
    | String "0" (String "x" r) => (16, r)
    | String "0" (String "X" r) => (16, r)
    | _ => (10, s2)
    end in
  match parse_digits radix s3 None with
  | None => NaN
  | Some n => Num (sign * n)
  end.

End JS.

(** ** What the page reads from its collaborators *)

(** Modelled from the spec: [useGame], [useSocket] and [window.location] are
    declared outside this file.  The identity provider exposes the current
    player (present or absent), the session collaborator a nullable
    [gameState.roomId] (a short room code) and [createRoom], the connection
    collaborator the boolean [connected]. *)
Record env : Type := {
  player : option string;
  roomId : option string;
  connected : bool;
  origin : string
}.

(** The two functions handed to [setTimeout]. *)
Inductive callback : Type :=
  | ResetCopied      (* () => setCopied(false) *)
  | ResetCodeCopied. (* () => setCodeCopied(false) *)

(** Calls the component makes on its collaborators and on the browser.
    [ConsoleLog] keeps the message of a [console.log] call, not the value
    printed after it. *)
Inductive effect : Type :=
  | Navigate (path : string)
  | ConsoleLog (msg : string)
  | CreateRoom (payload : gmap string jsval)
  | ClipboardWriteText (text : string)
  | SetTimeout (cb : callback) (ms : Z).

#[global] Instance callback_eq_dec : EqDecision callback.
Proof. solve_decision. Defined.

#[global] Instance effect_eq_dec : EqDecision effect.
Proof. solve_decision. Defined.

(** ** Component state: the five [useState] cells *)

Record cstate : Type := {
  isCreating : bool;
  settings : gmap string jsval;
  copied : bool;
  codeCopied : bool;
  errors : gmap string string
}.

Definition initialSettings : gmap string jsval :=
  <["totalPlayers" := VNum (Num 6)]>
  (<["drawTime" := VNum (Num 60)]>
  (<["totalRounds" := VNum (Num 3)]>
  (<["wordCount" := VNum (Num 3)]>
  (<["hintsCount" := VNum (Num 2)]>
  (<["customWordsOnly" := VBool false]>
  (<["customWords" := VStr ""]> ∅)))))).

Definition initialState : cstate :=
  {| isCreating := false;
     settings := initialSettings;
     copied := false;
     codeCopied := false;
     errors := ∅ |}.

Definition setIsCreating (b : bool) (st : cstate) : cstate :=
  {| isCreating := b; settings := settings st; copied := copied st;
     codeCopied := codeCopied st; errors := errors st |}.

Definition setSettings (f : gmap string jsval → gmap string jsval)
    (st : cstate) : cstate :=
  {| isCreating := isCreating st; settings := f (settings st);
     copied := copied st; codeCopied := codeCopied st; errors := errors st |}.

Definition setCopied (b : bool) (st : cstate) : cstate :=
  {| isCreating := isCreating st; settings := settings st; copied := b;
     codeCopied := codeCopied st; errors := errors st |}.

Definition setCodeCopied (b : bool) (st : cstate) : cstate :=
  {| isCreating := isCreating st; settings := settings st; copied := copied st;
     codeCopied := b; errors := errors st |}.

Definition setErrors (f : gmap string string → gmap string string)
    (st : cstate) : cstate :=
  {| isCreating := isCreating st; settings := settings st; copied := copied st;
     codeCopied := codeCopied st; errors := f (errors st) |}.

(** ** The two effects *)

(** [useEffect(() => { if (!player) navigate('/') }, [player, navigate])] *)
Definition playerEffect (e : env) : list effect :=
  match player e with
  | None => [Navigate "/"]
  | Some _ => []
  end.

(** [useEffect(() => { if (gameState.roomId && isCreating) {...} },
    [gameState.roomId, navigate, isCreating])] *)
Definition roomEffect (e : env) (st : cstate) : cstate * list effect :=
  match roomId e with
  | Some rid =>
      if JS.Boolean rid && isCreating st
      then (setIsCreating false st,
            [ConsoleLog "Room created successfully, navigating to room:";
             Navigate ("/room/" +:+ rid)])
      else (st, [])
  | None => (st, [])
  end.

(** ** handleInputChange *)

(** [e.target]: the fields of the input element the handler destructures. *)
Record target : Type := {
  name : string;
  value : string;
  type : string;
  checked : bool
}.

Definition handleInputChange (e : target) (st : cstate) : cstate :=
  let st1 :=
    if String.eqb (type e) "checkbox"
    then setSettings (λ prev, <[name e := VBool (checked e)]> prev) st
    else if String.eqb (type e) "number"
    then setSettings (λ prev, <[name e := VNum (JS.parseInt (value e))]> prev) st
    else setSettings (λ prev, <[name e := VStr (value e)]> prev) st in
  (* Clear any error for this field *)
  if JS.truthy (errors st !! name e)
  then setErrors (λ prev, delete (name e) prev) st1
  else st1.

(** ** validateSettings *)

(** TypeScript infers the settings state as
    [{totalPlayers: number; ...; customWordsOnly: boolean; customWords: string}].
    A field is read at its declared type; the read is undefined on a store
    that breaks this typing, which no rendered input produces: every page
    reached from a mount keeps the typing and handles every event (see
    [well_typed], [handleInputChange_well_typed] and [run_total]). *)
Definition get_number (o : gmap string jsval) (k : string) : option jsnum :=
  match o !! k with
  | Some (VNum n) => Some n
  | _ => None
  end.

Definition get_boolean (o : gmap string jsval) (k : string) : option bool :=
  match o !! k with
  | Some (VBool b) => Some b
  | _ => None
  end.

Definition get_string (o : gmap string jsval) (k : string) : option string :=
  match o !! k with
  | Some (VStr s) => Some s
  | _ => None
  end.

(** [raw.split(',').map(word => word.trim()).filter(Boolean)] *)
Definition parseWords (raw : string) : list string :=
  List.filter JS.Boolean (List.map JS.trim (JS.split "," raw)).

(** One range rule:
    [if (v < lo || v > hi) { newErrors[field] = msg }]. *)
Definition checkRange (field : string) (v : jsnum) (lo hi : Z) (msg : string)
    (newErrors : gmap string string) : gmap string string :=
  if JS.lt v lo || JS.gt v hi then <[field := msg]> newErrors else newErrors.

(** The object [newErrors] built by [validateSettings]. *)
Definition newErrors (s : gmap string jsval) : option (gmap string string) :=
  totalPlayers ← get_number s "totalPlayers";
  drawTime ← get_number s "drawTime";
  totalRounds ← get_number s "totalRounds";
  wordCount ← get_number s "wordCount";
  hintsCount ← get_number s "hintsCount";
  customWordsOnly ← get_boolean s "customWordsOnly";
  let errs0 : gmap string string := ∅ in
  let errs1 := checkRange "totalPlayers" totalPlayers 2 20
                 "Players must be between 2 and 20" errs0 in
  let errs2 := checkRange "drawTime" drawTime 15 240
                 "Draw time must be between 15 and 240 seconds" errs1 in
  let errs3 := checkRange "totalRounds" totalRounds 2 10
                 "Rounds must be between 2 and 10" errs2 in
  let errs4 := checkRange "wordCount" wordCount 1 5
                 "Word count must be between 1 and 5" errs3 in
  let errs5 := checkRange "hintsCount" hintsCount 0 5
                 "Hints must be between 0 and 5" errs4 in
  if (customWordsOnly : bool)
  then
    customWords ← get_string s "customWords";
    let words := parseWords customWords in
    if (List.length words <? 10)%nat
    then Some (<["customWords" := "Please enter at least 10 custom words"]> errs5)
    else Some errs5
  else Some errs5.

(** [validateSettings()]: stores [newErrors] and returns
    [Object.keys(newErrors).length === 0]. *)
Definition validateSettings (st : cstate) : option (bool * cstate) :=
  errs ← newErrors (settings st);
  Some (bool_decide (size errs = 0%nat), setErrors (λ _, errs) st).

(** ** handleCreateRoom *)

Definition handleCreateRoom (e : env) (st : cstate)
    : option (cstate * list effect) :=
  match validateSettings st with
  | None => None
  | Some (valid, st1) =>
      if negb valid || negb (connected e) then Some (st1, [])
      else
        let st2 := setIsCreating true st1 in
        customWords ← get_string (settings st) "customWords";
        let customWordsList := parseWords customWords in
        Some (st2,
              [ConsoleLog "Creating room with settings:";
               CreateRoom (<["customWords" := VArr customWordsList]> (settings st))])
  end.

(** ** Clipboard helpers *)

Definition copyRoomLink (e : env) (st : cstate) : cstate * list effect :=
  match roomId e with
  | Some rid =>
      if JS.Boolean rid
      then (setCopied true st,
            [ClipboardWriteText (origin e +:+ "/room/" +:+ rid);
             SetTimeout ResetCopied 2000])
      else (st, [])
  | None => (st, [])
  end.

Definition copyRoomCode (e : env) (st : cstate) : cstate * list effect :=
  match roomId e with
  | Some rid =>
      if JS.Boolean rid
      then (setCodeCopied true st,
            [ClipboardWriteText rid; SetTimeout ResetCodeCopied 2000])
      else (st, [])
  | None => (st, [])
  end.

Definition runCallback (cb : callback) (st : cstate) : cstate :=
  match cb with
  | ResetCopied => setCopied false st
  | ResetCodeCopied => setCodeCopied false st
  end.

(** ** What the markup lets the user do *)

(** The [name] and [type] of the seven inputs bound to [handleInputChange]
    (a [textarea] element reports the type ["textarea"]). *)
Definition inputs : list (string * string) :=
  [("totalPlayers", "number"); ("drawTime", "number");
   ("totalRounds", "number"); ("wordCount", "number");
   ("hintsCount", "number"); ("customWordsOnly", "checkbox");
   ("customWords", "textarea")].

Definition is_input (t : target) : bool :=
  bool_decide ((name t, type t) ∈ inputs).

(** The form sits under [if (!player) return null] and [{connected && ...}]. *)
Definition formRendered (e : env) : bool :=
  bool_decide (is_Some (player e)) && connected e.

(** [disabled={isCreating || !connected}] on the create button. *)
Definition createDisabled (e : env) (st : cstate) : bool :=
  isCreating st || negb (connected e).

(** A click on the create button: a disabled or absent button delivers no
    click to [handleCreateRoom]. *)
Definition clickCreate (e : env) (st : cstate) : option (cstate * list effect) :=
  if formRendered e && negb (createDisabled e st)
  then handleCreateRoom e st
  else Some (st, []).

(** ** The mounted component *)

(** A mounted instance: the context values of the last render, the state
    cells, the timeouts not yet expired, and the calls made so far. *)
Record world : Type := {
  ctx : env;
  comp : cstate;
  timers : list (callback * Z);
  mounted : bool;
  calls : list effect
}.

Definition scheduled (out : list effect) : list (callback * Z) :=
  omap (λ x, match x with SetTimeout cb ms => Some (cb, ms) | _ => None end) out.

(** The effects of one commit.  An effect runs on mount ([old = None]) and
    whenever one of its dependencies differs from the previous commit;
    [navigate] is stable.  The re-render caused by [setIsCreating(false)]
    runs [roomEffect] once more, with nothing to do ([roomEffect_settled]). *)
Definition flushEffects (old : option (env * cstate)) (e : env) (st : cstate)
    : cstate * list effect :=
  let run_player :=
    match old with
    | None => true
    | Some (e0, _) => negb (bool_decide (player e0 = player e))
    end in
  let run_room :=
    match old with
    | None => true
    | Some (e0, st0) =>
        negb (bool_decide (roomId e0 = roomId e)
              && bool_decide (isCreating st0 = isCreating st))
    end in
  let out1 := if run_player then playerEffect e else [] in
  let '(st2, out2) := if run_room then roomEffect e st else (st, []) in
  (st2, out1 ++ out2).

(** The cleanup functions React runs on unmount: neither [useEffect]
    callback returns one, and nothing calls [clearTimeout]. *)
Definition cleanups : list (world → world) := [].

Inductive event : Type :=
  | Change (t : target)   (* onChange of one of the inputs *)
  | ClickCreate           (* click on the create button *)
  | ClickBack             (* click on the back arrow *)
  | Context (e : env)     (* the providers deliver new context values *)
  | CopyLink              (* a call of copyRoomLink *)
  | CopyCode              (* a call of copyRoomCode *)
  | Timeout (i : nat)     (* the i-th pending timeout expires *)
  | Unmount.              (* the router removes the page *)

Definition mount (e : env) : world :=
  let '(st, out) := flushEffects None e initialState in
  {| ctx := e; comp := st; timers := scheduled out; mounted := true;
     calls := out |}.

(** Commit the render that follows a handler: store the new context and
    state, run the effects whose dependencies changed, record the calls. *)
Definition commit (w : world) (e : env) (st : cstate) (out : list effect)
    : world :=
  let '(st', out') := flushEffects (Some (ctx w, comp w)) e st in
  {| ctx := e; comp := st';
     timers := timers w ++ scheduled (out ++ out');
     mounted := mounted w;
     calls := calls w ++ out ++ out' |}.

Definition step (w : world) (ev : event) : option world :=
  match ev with
  | Timeout i =>
      match timers w !! i with
      | Some (cb, _) =>
          (* a state update on an unmounted component is dropped *)
          let st := if mounted w then runCallback cb (comp w) else comp w in
          Some {| ctx := ctx w; comp := st; timers := delete i (timers w);
                  mounted := mounted w; calls := calls w |}
      | None => Some w
      end
  | _ =>
      if negb (mounted w) then Some w
      else
        match ev with
        | Change t =>
            if formRendered (ctx w) && is_input t
            then Some (commit w (ctx w) (handleInputChange t (comp w)) [])
            else Some w
        | ClickCreate =>
            '(st, out) ← clickCreate (ctx w) (comp w);
            Some (commit w (ctx w) st out)
        | ClickBack =>
            if bool_decide (is_Some (player (ctx w)))
            then Some (commit w (ctx w) (comp w) [Navigate "/"])
            else Some w
        | Context e => Some (commit w e (comp w) [])
        | CopyLink =>
            let '(st, out) := copyRoomLink (ctx w) (comp w) in
            Some (commit w (ctx w) st out)
        | CopyCode =>
            let '(st, out) := copyRoomCode (ctx w) (comp w) in
            Some (commit w (ctx w) st out)
        | Timeout _ => Some w
        | Unmount =>
            Some (fold_right (λ f w', f w')
                    {| ctx := ctx w; comp := comp w; timers := timers w;
                       mounted := false; calls := calls w |} cleanups)
        end
  end.

Fixpoint run (w : world) (evs : list event) : option world :=
  match evs with
  | [] => Some w
  | ev :: evs' =>
      match step w ev with
      | Some w' => run w' evs'
      | None => None
      end
  end.

(** Navigations into a room among a list of calls. *)
Definition is_room_navigation (x : effect) : bool :=
  match x with
  | Navigate p => JS.startsWith "/room/" p
  | _ => false
  end.

Definition roomNavigations (out : list effect) : list effect :=
  List.filter is_room_navigation out.

(** ** The typing invariant of the settings object *)

Definition well_typed (s : gmap string jsval) : Prop :=
  (∃ n, s !! "totalPlayers" = Some (VNum n)) ∧
  (∃ n, s !! "drawTime" = Some (VNum n)) ∧
  (∃ n, s !! "totalRounds" = Some (VNum n)) ∧
  (∃ n, s !! "wordCount" = Some (VNum n)) ∧
  (∃ n, s !! "hintsCount" = Some (VNum n)) ∧
  (∃ b, s !! "customWordsOnly" = Some (VBool b)) ∧
  (∃ w, s !! "customWords" = Some (VStr w)).

(** ** Vocabulary of the statements *)

(** The settings object holds the given values under its seven keys. *)
Definition typed_as (s : gmap string jsval) (tp dt tr wc hc : jsnum)
    (cwo : bool) (cw : string) : Prop :=
  s !! "totalPlayers" = Some (VNum tp) ∧
  s !! "drawTime" = Some (VNum dt) ∧
  s !! "totalRounds" = Some (VNum tr) ∧
  s !! "wordCount" = Some (VNum wc) ∧
  s !! "hintsCount" = Some (VNum hc) ∧
  s !! "customWordsOnly" = Some (VBool cwo) ∧
  s !! "customWords" = Some (VStr cw).

(** What one range rule leaves under its key. *)
Definition rangeError (v : jsnum) (lo hi : Z) (msg : string) : option string :=
  if JS.lt v lo || JS.gt v hi then Some msg else None.

Definition fieldNames : list string :=
  ["totalPlayers"; "drawTime"; "totalRounds"; "wordCount"; "hintsCount";
   "customWords"].

(** A piece that holds no occurrence of the separator. *)
Fixpoint sep_free (sep : ascii) (s : string) : bool :=
  match s with
  | EmptyString => true
  | String c r => negb (Ascii.eqb c sep) && sep_free sep r
  end.

(** A string made of white space only. *)
Fixpoint all_space (s : string) : bool :=
  match s with
  | EmptyString => true
  | String c r => JS.is_space c && all_space r
  end.

Definition starts_with_space (s : string) : bool :=
  match s with
  | EmptyString => false
  | String c _ => JS.is_space c
  end.

Fixpoint ends_with_space (s : string) : bool :=
  match s with
  | EmptyString => false
  | String c EmptyString => JS.is_space c
  | String _ r => ends_with_space r
  end.

(** A word as the parser returns it: non-empty, without comma, without
    white space at either end. *)
Definition clean_word (w : string) : bool :=
  sep_free "," w && JS.Boolean w
  && negb (starts_with_space w) && negb (ends_with_space w).

(** Every stored message is a non-empty string, so [errors[k]] is truthy
    exactly when [k] has an entry. *)
Definition errors_truthy (errs : gmap string string) : Prop :=
  ∀ k msg, errs !! k = Some msg → JS.Boolean msg = true.

(** The value [handleInputChange] stores for an input element. *)
Definition coerced (t : target) : jsval :=
  if String.eqb (type t) "checkbox" then VBool (checked t)
  else if String.eqb (type t) "number" then VNum (JS.parseInt (value t))
  else VStr (value t).

(** ** Sample inputs and states *)

(** An edit of a number input, and the context of a host with an identity. *)
Definition numberInput (field text : string) : target :=
  {| name := field; value := text; type := "number"; checked := false |}.

Definition hostEnv (rid : option string) (conn : bool) : env :=
  {| player := Some "host"; roomId := rid; connected := conn;
     origin := "https://scibble.example" |}.

(** The defaults after typing 1 into both the players and the draw-time
    inputs and failing a validation. *)
Definition twoErrorsState : cstate :=
  {| isCreating := false;
     settings := <["totalPlayers" := VNum (Num 1)]>
                 (<["drawTime" := VNum (Num 1)]> initialSettings);
     copied := false;
     codeCopied := false;
     errors := <["totalPlayers" := "Players must be between 2 and 20"]>
               (<["drawTime" := "Draw time must be between 15 and 240 seconds"]>
                ∅) |}.

(** The defaults after typing 1 into both the players and the draw-time
    inputs, before any validation. *)
Definition editedState : cstate :=
  handleInputChange (numberInput "drawTime" "1")
    (handleInputChange (numberInput "totalPlayers" "1") initialState).

(** The page of a connected host right after a successful click on the
    create button. *)
Definition awaitingWorld : world :=
  {| ctx := hostEnv None true;
     comp := setIsCreating true initialState;
     timers := [];
     mounted := true;
     calls := [ConsoleLog "Creating room with settings:";
               CreateRoom (<["customWords" := VArr []]> initialSettings)] |}.

(** Room navigations made so far, plus one while a confirmation is awaited. *)
Definition budget (w : world) : nat :=
  (List.length (roomNavigations (calls w))
   + (if isCreating (comp w) then 1 else 0))%nat.

(** Events that do not start a creation. *)
Definition not_create (ev : event) : bool :=
  match ev with
  | ClickCreate => false
  | _ => true
  end.

(** The context values after the identity is lost, with the given room id. *)
Definition lostEnv (rid : option string) : env :=
  {| player := None; roomId := rid; connected := true;
     origin := "https://scibble.example" |}.


(** The page of a connected host who has just copied the link of room
    ABCD12, and the same page after its teardown. *)
Definition copiedWorld : world :=
  {| ctx := hostEnv (Some "ABCD12") true;
     comp := setCopied true initialState;
     timers := [(ResetCopied, 2000)];
     mounted := true;
     calls := [ClipboardWriteText "https://scibble.example/room/ABCD12";
               SetTimeout ResetCopied 2000] |}.

Definition tornDownWorld : world :=
  {| ctx := ctx copiedWorld; comp := comp copiedWorld;
     timers := timers copiedWorld; mounted := false;
     calls := calls copiedWorld |}.

(** ** Vocabulary of the further properties *)

Definition is_createRoom (x : effect) : bool :=
  match x with
  | CreateRoom _ => true
  | _ => false
  end.

(** The creation requests among a list of calls. *)
Definition createRequests (out : list effect) : list effect :=
  List.filter is_createRoom out.

Definition is_change (ev : event) : bool :=
  match ev with
  | Change _ => true
  | _ => false
  end.

(** An event that delivers no usable room id. *)
Definition no_room_id (ev : event) : bool :=
  match ev with
  | Context e => negb (JS.truthy (roomId e))
  | _ => true
  end.

(** An event that does not bring the form on screen. *)
Definition keeps_form_hidden (ev : event) : bool :=
  match ev with
  | Context e => negb (formRendered e)
  | _ => true
  end.

(** A text made of white space and commas only. *)
Fixpoint blank (s : string) : bool :=
  match s with
  | EmptyString => true
  | String c r => (JS.is_space c || Ascii.eqb c ",") && blank r
  end.

(** Number of commas of a text. *)
Fixpoint commas (s : string) : nat :=
  match s with
  | EmptyString => 0%nat
  | String c r => ((if Ascii.eqb c "," then 1 else 0) + commas r)%nat
  end.

(** The six keys the validator reads besides [customWords]. *)
Definition ruleKeys : list string :=
  ["totalPlayers"; "drawTime"; "totalRounds"; "wordCount"; "hintsCount";
   "customWordsOnly"].

(** The text an input shows for an integer held in the settings
    ([value={settings.totalPlayers}]): its decimal numeral, with a minus
    sign when negative.  This is the text JavaScript gives for every integer
    a double holds exactly (up to 2^53 in magnitude); beyond 10^21 it would
    switch to exponent notation. *)
Definition numberToString (z : Z) : string :=
  DecimalString.NilZero.string_of_int (Z.to_int z).

(** The value of a decimal numeral read after an accumulated [acc]. *)
Fixpoint uint_value (d : Decimal.uint) (acc : Z) : Z :=
  match d with
  | Decimal.Nil => acc
  | Decimal.D0 l => uint_value l (10 * acc + 0)
  | Decimal.D1 l => uint_value l (10 * acc + 1)
  | Decimal.D2 l => uint_value l (10 * acc + 2)
  | Decimal.D3 l => uint_value l (10 * acc + 3)
  | Decimal.D4 l => uint_value l (10 * acc + 4)
  | Decimal.D5 l => uint_value l (10 * acc + 5)
  | Decimal.D6 l => uint_value l (10 * acc + 6)
  | Decimal.D7 l => uint_value l (10 * acc + 7)
  | Decimal.D8 l => uint_value l (10 * acc + 8)
  | Decimal.D9 l => uint_value l (10 * acc + 9)
  end.

(** A text that can follow a decimal numeral without being read as part of
    it: empty, or starting with a character that is neither a decimal digit
    nor the [x] of a hexadecimal prefix (a decimal point, an exponent mark,
    a unit, white space). *)
Definition ends_number (suffix : string) : bool :=
  match suffix with
  | EmptyString => true
  | String c _ =>
      negb (Ascii.eqb c "x") && negb (Ascii.eqb c "X")
      && match JS.digit_value c with
         | Some d => 10 <=? d
         | None => true
         end
  end.

(* ================================================================== *)
(** * Properties *)

(** ** JavaScript helpers on concrete inputs *)

Example parseInt_plain : JS.parseInt "12" = Num 12.
Proof. reflexivity. Qed.

Example parseInt_prefix : JS.parseInt "  -7px" = Num (-7).
Proof. reflexivity. Qed.

Example parseInt_hex : JS.parseInt "0x1F" = Num 31.
Proof. reflexivity. Qed.

Example parseInt_empty : JS.parseInt "" = NaN.
Proof. reflexivity. Qed.

Example parseInt_letters : JS.parseInt "abc" = NaN.
Proof. reflexivity. Qed.

Example split_empty : JS.split "," "" = [""].
Proof. reflexivity. Qed.

Example split_trailing : JS.split "," "a,b," = ["a"; "b"; ""].
Proof. reflexivity. Qed.

Example trim_both : JS.trim "  a b  " = "a b".
Proof. reflexivity. Qed.

(** ** Typing of the settings object *)

Lemma well_typed_typed_as s :
  well_typed s ↔ ∃ tp dt tr wc hc cwo cw, typed_as s tp dt tr wc hc cwo cw.
Proof.
  unfold well_typed, typed_as. split.
  - intros ([tp ?] & [dt ?] & [tr ?] & [wc ?] & [hc ?] & [cwo ?] & [cw ?]).
    exists tp, dt, tr, wc, hc, cwo, cw. tauto.
  - intros (tp & dt & tr & wc & hc & cwo & cw & H1 & H2 & H3 & H4 & H5 & H6 & H7).
    repeat split; eauto.
Qed.

Lemma initialSettings_typed :
  typed_as initialSettings (Num 6) (Num 60) (Num 3) (Num 3) (Num 2) false "".
Proof. repeat split; reflexivity. Qed.

Lemma initialSettings_well_typed : well_typed initialSettings.
Proof. apply well_typed_typed_as. eauto 10 using initialSettings_typed. Qed.

(** Every rendered input writes a value of the declared type of its key. *)
Lemma handleInputChange_well_typed t st :
  is_input t = true →
  well_typed (settings st) →
  well_typed (settings (handleInputChange t st)).
Proof.
  unfold is_input, inputs. intros Hin Hwt.
  apply bool_decide_eq_true_1 in Hin.
  assert (Hset : ∃ v,
    settings (handleInputChange t st) = <[name t := v]> (settings st) ∧
    ((type t = "number" ∧ ∃ n, v = VNum n) ∨
     (type t = "checkbox" ∧ ∃ b, v = VBool b) ∨
     (type t = "textarea" ∧ ∃ w, v = VStr w))).
  { repeat (apply elem_of_cons in Hin as [Hin | Hin]);
      [injection Hin as Hn Ht .. | by apply elem_of_nil in Hin];
      unfold handleInputChange; rewrite Ht; simpl;
      destruct (JS.truthy _); simpl; eexists; (split; [reflexivity |]); eauto 6. }
  destruct Hset as (v & -> & Hv).
  unfold well_typed in *.
  destruct Hwt as (H1 & H2 & H3 & H4 & H5 & H6 & H7).
  repeat (apply elem_of_cons in Hin as [Hin | Hin]);
    [injection Hin as Hn Ht .. | by apply elem_of_nil in Hin];
    rewrite Hn; rewrite Ht in Hv;
    destruct Hv as [[? [n ->]] | [[? [b ->]] | [? [w ->]]]]; try discriminate;
    repeat split;
    first [ by (rewrite lookup_insert_eq; eauto)
          | by (rewrite lookup_insert_ne by done; assumption) ].
Qed.

(** ** The validator *)

Lemma lookup_checkRange f v lo hi msg (m : gmap string string) k :
  checkRange f v lo hi msg m !! k =
  if decide (f = k)
  then (if JS.lt v lo || JS.gt v hi then Some msg else m !! k)
  else m !! k.
Proof.
  unfold checkRange. destruct (JS.lt v lo || JS.gt v hi).
  - rewrite lookup_insert. reflexivity.
  - case_decide; reflexivity.
Qed.

(** On a typed settings object the validator returns, and each key of its
    result is decided by the rule of that key alone. *)
Lemma newErrors_lookup s tp dt tr wc hc cwo cw :
  typed_as s tp dt tr wc hc cwo cw →
  ∃ errs,
    newErrors s = Some errs ∧
    errs !! "totalPlayers" =
      rangeError tp 2 20 "Players must be between 2 and 20" ∧
    errs !! "drawTime" =
      rangeError dt 15 240 "Draw time must be between 15 and 240 seconds" ∧
    errs !! "totalRounds" =
      rangeError tr 2 10 "Rounds must be between 2 and 10" ∧
    errs !! "wordCount" =
      rangeError wc 1 5 "Word count must be between 1 and 5" ∧
    errs !! "hintsCount" =
      rangeError hc 0 5 "Hints must be between 0 and 5" ∧
    errs !! "customWords" =
      (if cwo && (List.length (parseWords cw) <? 10)%nat
       then Some "Please enter at least 10 custom words" else None) ∧
    (∀ k, k ∉ fieldNames → errs !! k = None).
Proof.
  intros (H1 & H2 & H3 & H4 & H5 & H6 & H7).
  unfold newErrors, get_number, get_boolean, get_string.
  rewrite H1, H2, H3, H4, H5, H6. cbn [mbind option_bind].
  assert (Hother : ∀ k (P : Prop), k ∉ fieldNames →
            (("customWords" ≠ k → "hintsCount" ≠ k → "wordCount" ≠ k →
              "totalRounds" ≠ k → "drawTime" ≠ k → "totalPlayers" ≠ k → P) → P)).
  { intros k P Hk HP. unfold fieldNames in Hk.
    apply HP; intros <-; apply Hk; set_solver. }
  destruct cwo; [rewrite H7; cbn [mbind option_bind];
                 destruct (List.length (parseWords cw) <? 10)%nat |];
    eexists; (split; [reflexivity |]); unfold rangeError;
    repeat (rewrite ?lookup_insert_ne by done); rewrite ?lookup_insert_eq;
    rewrite !lookup_checkRange; cbn;
    (repeat split; try reflexivity);
    intros k Hk; apply (Hother k _ Hk); intros;
    repeat (rewrite ?lookup_insert_ne by done);
    rewrite !lookup_checkRange;
    repeat (rewrite decide_False by done); apply lookup_empty.
Qed.

Lemma rangeError_is_Some v lo hi msg :
  is_Some (rangeError v lo hi msg) ↔ ∃ z, v = Num z ∧ ¬ (lo ≤ z ≤ hi).
Proof.
  unfold rangeError, JS.lt, JS.gt. destruct v as [| z].
  - simpl. split; [intros [? ?]; discriminate | intros (z & ? & _); discriminate].
  - destruct (Z.ltb_spec z lo); destruct (Z.ltb_spec hi z); simpl; split;
      try (intros _; exists z; split; [reflexivity | lia]);
      try (intros _; eexists; reflexivity);
      try (intros [? ?]; discriminate).
    intros (z' & Hz & Hout). injection Hz as <-. lia.
Qed.

Lemma validateSettings_newErrors st errs :
  newErrors (settings st) = Some errs →
  validateSettings st =
    Some (bool_decide (size errs = 0%nat), setErrors (λ _, errs) st).
Proof. intros H. unfold validateSettings. rewrite H. reflexivity. Qed.

Lemma bool_decide_size_empty (errs : gmap string string) :
  bool_decide (size errs = 0%nat) = true ↔ errs = ∅.
Proof. rewrite bool_decide_eq_true. apply map_size_empty_iff. Qed.

(** C3.  On a settings object holding values of the declared types,
    [validateSettings] returns, and the mapping it stores has an entry for a
    numeric field exactly when the field holds an integer outside its
    inclusive range (players 2..20, draw time 15..240, rounds 2..10, words
    1..5, hints 0..5) and an entry for [customWords] exactly when
    [customWordsOnly] is set and fewer than 10 words are parsed.  Each entry
    is a function of its own field only ([rangeError] of that field), no other
    key is ever written, and the returned flag is true iff the mapping is
    empty. *)
Theorem validateSettings_rules st tp dt tr wc hc cwo cw :
  typed_as (settings st) tp dt tr wc hc cwo cw →
  ∃ errs valid,
    validateSettings st = Some (valid, setErrors (λ _, errs) st) ∧
    (is_Some (errs !! "totalPlayers") ↔ ∃ z, tp = Num z ∧ ¬ (2 ≤ z ≤ 20)) ∧
    (is_Some (errs !! "drawTime") ↔ ∃ z, dt = Num z ∧ ¬ (15 ≤ z ≤ 240)) ∧
    (is_Some (errs !! "totalRounds") ↔ ∃ z, tr = Num z ∧ ¬ (2 ≤ z ≤ 10)) ∧
    (is_Some (errs !! "wordCount") ↔ ∃ z, wc = Num z ∧ ¬ (1 ≤ z ≤ 5)) ∧
    (is_Some (errs !! "hintsCount") ↔ ∃ z, hc = Num z ∧ ¬ (0 ≤ z ≤ 5)) ∧
    (is_Some (errs !! "customWords") ↔
       cwo = true ∧ (List.length (parseWords cw) < 10)%nat) ∧
    errs !! "totalPlayers" =
      rangeError tp 2 20 "Players must be between 2 and 20" ∧
    errs !! "drawTime" =
      rangeError dt 15 240 "Draw time must be between 15 and 240 seconds" ∧
    errs !! "totalRounds" =
      rangeError tr 2 10 "Rounds must be between 2 and 10" ∧
    errs !! "wordCount" =
      rangeError wc 1 5 "Word count must be between 1 and 5" ∧
    errs !! "hintsCount" =
      rangeError hc 0 5 "Hints must be between 0 and 5" ∧
    (∀ k, k ∉ fieldNames → errs !! k = None) ∧
    (valid = true ↔ errs = ∅).
Proof.
  intros Hty.
  destruct (newErrors_lookup _ _ _ _ _ _ _ _ Hty)
    as (errs & Hnew & E1 & E2 & E3 & E4 & E5 & E6 & Hother).
  exists errs, (bool_decide (size errs = 0%nat)).
  assert (Hcw : is_Some (errs !! "customWords") ↔
            cwo = true ∧ (List.length (parseWords cw) < 10)%nat).
  { rewrite E6. destruct cwo; simpl.
    - destruct (Nat.ltb_spec (List.length (parseWords cw)) 10); split.
      + intros _. split; [reflexivity | assumption].
      + intros _. eexists. reflexivity.
      + intros [? ?]. discriminate.
      + intros [_ ?]. lia.
    - split; [intros [? ?]; discriminate | intros [? _]; discriminate]. }
  split; [by apply validateSettings_newErrors |].
  rewrite E1, E2, E3, E4, E5, !rangeError_is_Some.
  repeat (split; [reflexivity || assumption |]).
  apply bool_decide_size_empty.
Qed.

(** The rules at work on the defaults: every field inside its range. *)
Lemma validateSettings_rules_witness :
  typed_as (settings initialState) (Num 6) (Num 60) (Num 3) (Num 3) (Num 2)
    false "" ∧
  ∃ errs valid,
    validateSettings initialState = Some (valid, setErrors (λ _, errs) initialState) ∧
    (is_Some (errs !! "totalPlayers") ↔ ∃ z, Num 6 = Num z ∧ ¬ (2 ≤ z ≤ 20)).
Proof.
  split; [exact initialSettings_typed |].
  destruct (validateSettings_rules initialState _ _ _ _ _ _ _ initialSettings_typed)
    as (errs & valid & H & H1 & _).
  exists errs, valid. split; assumption.
Defined.

(** The ten boundary values, and their neighbours, on otherwise default
    settings. *)
Example boundaries_accepted :
  Forall (λ '(f, z), newErrors (<[f := VNum (Num z)]> initialSettings) = Some ∅)
    [("totalPlayers", 2); ("totalPlayers", 20); ("drawTime", 15);
     ("drawTime", 240); ("totalRounds", 2); ("totalRounds", 10);
     ("wordCount", 1); ("wordCount", 5); ("hintsCount", 0); ("hintsCount", 5)].
Proof. repeat constructor. Qed.

Example neighbours_rejected :
  Forall (λ '(f, z),
      ∃ msg, newErrors (<[f := VNum (Num z)]> initialSettings) = Some {[f := msg]})
    [("totalPlayers", 1); ("totalPlayers", 21); ("drawTime", 14);
     ("drawTime", 241); ("totalRounds", 1); ("totalRounds", 11);
     ("wordCount", 0); ("wordCount", 6); ("hintsCount", -1); ("hintsCount", 6)].
Proof. repeat constructor; eexists; vm_compute; reflexivity. Qed.

Example nine_custom_words_rejected :
  newErrors (<["customWordsOnly" := VBool true]>
             (<["customWords" := VStr "a,b,c,d,e,f,g,h,i"]> initialSettings))
  = Some {["customWords" := "Please enter at least 10 custom words"]}.
Proof. vm_compute. reflexivity. Qed.

Example ten_custom_words_accepted :
  newErrors (<["customWordsOnly" := VBool true]>
             (<["customWords" := VStr "a,b,c,d,e,f,g,h,i,j"]> initialSettings))
  = Some ∅.
Proof. vm_compute. reflexivity. Qed.

(** ** Commits *)

(** With unchanged context values only a change of [isCreating] re-runs an
    effect. *)
Lemma flushEffects_same_ctx e st0 st :
  flushEffects (Some (e, st0)) e st =
  if bool_decide (isCreating st0 = isCreating st) then (st, [])
  else roomEffect e st.
Proof.
  unfold flushEffects.
  rewrite (bool_decide_eq_true_2 (player e = player e)) by reflexivity.
  rewrite (bool_decide_eq_true_2 (roomId e = roomId e)) by reflexivity.
  cbn [negb andb].
  destruct (bool_decide (isCreating st0 = isCreating st)); cbn [negb].
  - reflexivity.
  - destruct (roomEffect e st). reflexivity.
Qed.

Lemma handleCreateRoom_initial p r o :
  handleCreateRoom
    {| player := p; roomId := r; connected := true; origin := o |}
    initialState
  = Some (setIsCreating true initialState,
          [ConsoleLog "Creating room with settings:";
           CreateRoom (<["customWords" := VArr []]> initialSettings)]).
Proof. vm_compute. reflexivity. Qed.

(** C10.  The page starts Idle, with no errors and both clipboard flags
    down; the default settings (6 players, 60 s, 3 rounds, 3 words, 2 hints,
    default word list) pass every rule, so validation of the untouched
    defaults stores an empty mapping and returns true, and with a connection
    the create handler, and a click on the create button right after mount,
    send the request without any edit. *)
Theorem initial_state_well_formed :
  isCreating initialState = false ∧
  errors initialState = ∅ ∧
  copied initialState = false ∧
  codeCopied initialState = false ∧
  typed_as (settings initialState)
    (Num 6) (Num 60) (Num 3) (Num 3) (Num 2) false "" ∧
  dom (settings initialState) =
    {["totalPlayers"; "drawTime"; "totalRounds"; "wordCount"; "hintsCount";
      "customWordsOnly"; "customWords"]} ∧
  newErrors (settings initialState) = Some ∅ ∧
  validateSettings initialState = Some (true, initialState) ∧
  (∀ p r o,
     handleCreateRoom
       {| player := p; roomId := r; connected := true; origin := o |}
       initialState
     = Some (setIsCreating true initialState,
             [ConsoleLog "Creating room with settings:";
              CreateRoom (<["customWords" := VArr []]> initialSettings)])) ∧
  (∀ p o,
     ∃ w, step (mount {| player := Some p; roomId := None; connected := true;
                         origin := o |}) ClickCreate = Some w ∧
          isCreating (comp w) = true ∧
          calls w = [ConsoleLog "Creating room with settings:";
                     CreateRoom (<["customWords" := VArr []]> initialSettings)]).
Proof.
  split; [reflexivity |]. split; [reflexivity |].
  split; [reflexivity |]. split; [reflexivity |].
  split; [exact initialSettings_typed |].
  split.
  { unfold initialState, initialSettings; cbn [settings].
    rewrite !dom_insert_L, dom_empty_L. set_solver. }
  split; [vm_compute; reflexivity |].
  split; [vm_compute; reflexivity |].
  split.
  - exact handleCreateRoom_initial.
  - intros p o. eexists. split.
    { unfold mount, step, clickCreate, formRendered, createDisabled.
      cbn [flushEffects playerEffect roomEffect player roomId isCreating
           initialState app mounted negb scheduled omap ctx comp connected
           andb orb].
      rewrite bool_decide_eq_true_2 by eauto. cbn [andb].
      change {| isCreating := false; settings := initialSettings;
                copied := false; codeCopied := false; errors := ∅ |}
        with initialState.
      rewrite handleCreateRoom_initial. cbn [mbind option_bind].
      unfold commit. cbn [ctx comp]. rewrite flushEffects_same_ctx.
      cbn. reflexivity. }
    split; reflexivity.
Qed.

(** ** The word-list parser *)

Section Split.
Variable sep : ascii.

Lemma split_not_nil s : JS.split sep s ≠ [].
Proof.
  destruct s as [| c r]; simpl; [discriminate |].
  destruct (Ascii.eqb c sep); [discriminate |].
  destruct (JS.split sep r); discriminate.
Qed.

Lemma split_sep_free p : sep_free sep p = true → JS.split sep p = [p].
Proof.
  induction p as [| c r IH]; simpl; [reflexivity |].
  destruct (Ascii.eqb c sep); simpl; [discriminate |].
  intros H. rewrite (IH H). reflexivity.
Qed.

Lemma split_app p r :
  sep_free sep p = true →
  JS.split sep (p +:+ String sep r) = p :: JS.split sep r.
Proof.
  induction p as [| c p IH]; simpl.
  - intros _. rewrite Ascii.eqb_refl. reflexivity.
  - destruct (Ascii.eqb c sep); simpl; [discriminate |].
    intros H. rewrite (IH H). reflexivity.
Qed.

(** Splitting undoes joining separator-free pieces ... *)
Lemma split_join ps :
  ps ≠ [] →
  Forall (λ p, sep_free sep p = true) ps →
  JS.split sep (JS.join (String sep EmptyString) ps) = ps.
Proof.
  induction ps as [| p ps IH]; [congruence |].
  intros _ Hall. apply Forall_cons in Hall as [Hp Hps].
  destruct ps as [| q ps].
  - simpl. by apply split_sep_free.
  - change (JS.join (String sep EmptyString) (p :: q :: ps))
      with (p +:+ String sep (JS.join (String sep EmptyString) (q :: ps))).
    rewrite split_app by assumption. f_equal. by apply IH.
Qed.

(** ... and every string is the join of its separator-free pieces. *)
Lemma split_pieces s :
  Forall (λ p, sep_free sep p = true) (JS.split sep s) ∧
  JS.join (String sep EmptyString) (JS.split sep s) = s.
Proof.
  induction s as [| c r [IHall IHjoin]]; simpl.
  - split; [repeat constructor | reflexivity].
  - destruct (Ascii.eqb_spec c sep) as [-> | Hne].
    + split; [by constructor |].
      pose proof (split_not_nil r) as Hnil.
      destruct (JS.split sep r) as [| q qs]; [congruence |].
      change (JS.join (String sep EmptyString) (EmptyString :: q :: qs))
        with (String sep (JS.join (String sep EmptyString) (q :: qs))).
      by rewrite IHjoin.
    + pose proof (split_not_nil r) as Hnil.
      destruct (JS.split sep r) as [| q qs]; [congruence |].
      apply Forall_cons in IHall as [Hq Hqs]. split.
      * constructor; [| assumption]. simpl.
        apply Ascii.eqb_neq in Hne. by rewrite Hne.
      * rewrite <- IHjoin. destruct qs as [| q' qs]; reflexivity.
Qed.
End Split.

(** What [trim] removes is white space, and what it returns has none left
    at either end. *)
Lemma trimStart_spec s :
  ∃ l, s = l +:+ JS.trimStart s ∧ all_space l = true ∧
       starts_with_space (JS.trimStart s) = false.
Proof.
  induction s as [| c r (l & Hs & Hl & Hst)]; simpl.
  - exists EmptyString. by repeat split.
  - destruct (JS.is_space c) eqn:Hc.
    + exists (String c l). simpl. rewrite Hc. repeat split; [| done ..].
      change (String c r = String c (l +:+ JS.trimStart r)). congruence.
    + exists EmptyString. simpl. by repeat split.
Qed.

Lemma append_cons c a b : String c a +:+ b = String c (a +:+ b).
Proof. reflexivity. Qed.

Lemma append_nil b : EmptyString +:+ b = b.
Proof. reflexivity. Qed.

Lemma trimEnd_spec s :
  ∃ r, s = JS.trimEnd s +:+ r ∧ all_space r = true ∧
       ends_with_space (JS.trimEnd s) = false.
Proof.
  induction s as [| c s (r & Hs & Hr & Hend)].
  - exists EmptyString. by repeat split.
  - cbn [JS.trimEnd]. destruct (JS.trimEnd s) as [| d t] eqn:Ht.
    + rewrite append_nil in Hs. subst s.
      destruct (JS.is_space c) eqn:Hc.
      * exists (String c r). rewrite append_nil. cbn [all_space]. rewrite Hc.
        by repeat split.
      * exists r. rewrite append_cons, append_nil. cbn [ends_with_space].
        by repeat split.
    + exists r. rewrite append_cons, <- Hs.
      change (ends_with_space (String c (String d t)))
        with (ends_with_space (String d t)).
      by repeat split.
Qed.

Lemma trimEnd_starts s :
  starts_with_space s = false → starts_with_space (JS.trimEnd s) = false.
Proof.
  destruct s as [| c r]; simpl; [done |].
  intros Hc. destruct (JS.trimEnd r); simpl; by rewrite ?Hc.
Qed.

Lemma trim_spec s :
  ∃ l r, s = l +:+ JS.trim s +:+ r ∧
         all_space l = true ∧ all_space r = true ∧
         starts_with_space (JS.trim s) = false ∧
         ends_with_space (JS.trim s) = false.
Proof.
  destruct (trimStart_spec s) as (l & Hs & Hl & Hst).
  destruct (trimEnd_spec (JS.trimStart s)) as (r & Hs' & Hr & Hend).
  exists l, r. unfold JS.trim. repeat split; try assumption.
  - by rewrite <- Hs', <- Hs.
  - by apply trimEnd_starts.
Qed.

(** A word with no white space at either end is left as it is. *)
Lemma trimStart_clean w : starts_with_space w = false → JS.trimStart w = w.
Proof. destruct w as [| c r]; simpl; [done |]. by intros ->. Qed.

Lemma trimEnd_clean w : ends_with_space w = false → JS.trimEnd w = w.
Proof.
  induction w as [| c r IH]; simpl; [done |].
  destruct r as [| d t].
  - simpl. by intros ->.
  - intros H. rewrite (IH H). reflexivity.
Qed.

Lemma trim_clean w :
  starts_with_space w = false → ends_with_space w = false → JS.trim w = w.
Proof.
  intros H1 H2. unfold JS.trim. rewrite trimStart_clean by done.
  by apply trimEnd_clean.
Qed.

Lemma parseWords_join ps :
  Forall (λ p, sep_free "," p = true) ps →
  parseWords (JS.join "," ps) = List.filter JS.Boolean (List.map JS.trim ps).
Proof.
  intros Hall. unfold parseWords. destruct ps as [| p ps]; [reflexivity |].
  by rewrite split_join.
Qed.

Lemma parseWords_clean ws :
  Forall (λ w, clean_word w = true) ws → parseWords (JS.join "," ws) = ws.
Proof.
  intros Hall. rewrite parseWords_join.
  - induction Hall as [| w ws Hw _ IH]; [reflexivity |].
    unfold clean_word in Hw. rewrite !andb_true_iff, !negb_true_iff in Hw.
    destruct Hw as [[[_ Hb] Hs] He].
    cbn [List.map List.filter]. rewrite trim_clean, Hb, IH by assumption.
    reflexivity.
  - eapply Forall_impl; [exact Hall |]. intros w Hw. unfold clean_word in Hw.
    rewrite !andb_true_iff in Hw. tauto.
Qed.

(** ** The create handler *)

(** The handler, with the validator inlined. *)
Lemma handleCreateRoom_unfold e st :
  handleCreateRoom e st =
  match newErrors (settings st) with
  | None => None
  | Some errs =>
      if bool_decide (size errs = 0%nat) && connected e
      then
        match get_string (settings st) "customWords" with
        | None => None
        | Some raw =>
            Some (setIsCreating true (setErrors (λ _, errs) st),
                  [ConsoleLog "Creating room with settings:";
                   CreateRoom (<["customWords" := VArr (parseWords raw)]>
                                 (settings st))])
        end
      else Some (setErrors (λ _, errs) st, [])
  end.
Proof.
  unfold handleCreateRoom, validateSettings.
  destruct (newErrors (settings st)) as [errs |]; [| reflexivity].
  cbn [mbind option_bind].
  destruct (bool_decide (size errs = 0%nat)), (connected e); reflexivity.
Qed.

Lemma get_string_Some s k raw :
  get_string s k = Some raw ↔ s !! k = Some (VStr raw).
Proof.
  unfold get_string. destruct (s !! k) as [[] |]; split; congruence.
Qed.

(** C4.  The word list is the input cut at every comma, each piece trimmed,
    the empty pieces dropped, in input order and with repetitions kept:
    ["a, b ,c,,d"] gives [a; b; c; d].  Cutting at commas is exact (the
    pieces hold no comma and joined by commas give the input back), so
    parsing a comma-joined list of pieces is trimming and filtering that
    list, and comma-joined clean words come back unchanged, a word entered
    twice coming back twice.  Whenever the create handler sends a request,
    the payload is the settings object with [customWords] replaced by this
    list; and it does send it when validation passes with a connection. *)
Theorem parseWords_is_payload :
  parseWords "a, b ,c,,d" = ["a"; "b"; "c"; "d"] ∧
  parseWords "cat, dog,cat" = ["cat"; "dog"; "cat"] ∧
  (∀ raw,
     parseWords raw =
       List.filter JS.Boolean (List.map JS.trim (JS.split "," raw)) ∧
     Forall (λ p, sep_free "," p = true) (JS.split "," raw) ∧
     JS.join "," (JS.split "," raw) = raw) ∧
  (∀ ps, Forall (λ p, sep_free "," p = true) ps →
     parseWords (JS.join "," ps) = List.filter JS.Boolean (List.map JS.trim ps)) ∧
  (∀ ws, Forall (λ w, clean_word w = true) ws →
     parseWords (JS.join "," ws) = ws) ∧
  (∀ e st st' out payload,
     handleCreateRoom e st = Some (st', out) →
     CreateRoom payload ∈ out →
     ∃ raw,
       settings st !! "customWords" = Some (VStr raw) ∧
       payload = <["customWords" := VArr (parseWords raw)]> (settings st) ∧
       payload !! "customWords" = Some (VArr (parseWords raw)) ∧
       out = [ConsoleLog "Creating room with settings:"; CreateRoom payload]) ∧
  (∀ e st raw,
     connected e = true →
     newErrors (settings st) = Some ∅ →
     settings st !! "customWords" = Some (VStr raw) →
     handleCreateRoom e st =
       Some (setIsCreating true (setErrors (λ _, ∅) st),
             [ConsoleLog "Creating room with settings:";
              CreateRoom (<["customWords" := VArr (parseWords raw)]>
                            (settings st))])).
Proof.
  split; [reflexivity |]. split; [reflexivity |].
  split.
  { intros raw. split; [reflexivity |]. apply (split_pieces ","). }
  split; [exact parseWords_join |].
  split; [exact parseWords_clean |].
  split.
  - intros e st st' out payload Hrun Hin.
    rewrite handleCreateRoom_unfold in Hrun.
    destruct (newErrors (settings st)) as [errs |]; [| discriminate].
    destruct (bool_decide (size errs = 0%nat) && connected e).
    + destruct (get_string (settings st) "customWords") as [raw |] eqn:Hraw;
        [| discriminate].
      injection Hrun as <- <-. exists raw.
      apply elem_of_cons in Hin as [Hin | Hin]; [discriminate |].
      apply list_elem_of_singleton in Hin. injection Hin as ->.
      split; [by apply get_string_Some |]. split; [reflexivity |].
      split; [apply lookup_insert_eq | reflexivity].
    + injection Hrun as <- <-. by apply elem_of_nil in Hin.
  - intros e st raw Hconn Hnew Hraw.
    rewrite handleCreateRoom_unfold, Hnew, Hconn.
    apply get_string_Some in Hraw. rewrite Hraw. reflexivity.
Qed.

(** Three words, one of them twice, survive parsing in order. *)
Lemma parseWords_is_payload_witness :
  Forall (λ w, clean_word w = true) ["cat"; "dog"; "cat"] ∧
  parseWords (JS.join "," ["cat"; "dog"; "cat"]) = ["cat"; "dog"; "cat"].
Proof.
  assert (H : Forall (λ w, clean_word w = true) ["cat"; "dog"; "cat"])
    by (repeat constructor).
  split; [exact H |].
  apply (proj1 (proj2 (proj2 (proj2 (proj2 parseWords_is_payload))))).
  exact H.
Defined.

(** ** Editing a field *)

Lemma handleInputChange_settings t st :
  settings (handleInputChange t st) = <[name t := coerced t]> (settings st).
Proof.
  unfold handleInputChange, coerced.
  destruct (String.eqb (type t) "checkbox"), (String.eqb (type t) "number"),
    (JS.truthy (errors st !! name t)); reflexivity.
Qed.

Lemma handleInputChange_errors t st :
  errors (handleInputChange t st) =
  if JS.truthy (errors st !! name t) then delete (name t) (errors st)
  else errors st.
Proof.
  unfold handleInputChange.
  destruct (String.eqb (type t) "checkbox"), (String.eqb (type t) "number"),
    (JS.truthy (errors st !! name t)); reflexivity.
Qed.

Lemma handleInputChange_flags t st :
  isCreating (handleInputChange t st) = isCreating st ∧
  copied (handleInputChange t st) = copied st ∧
  codeCopied (handleInputChange t st) = codeCopied st.
Proof.
  unfold handleInputChange.
  destruct (String.eqb (type t) "checkbox"), (String.eqb (type t) "number"),
    (JS.truthy (errors st !! name t)); repeat split; reflexivity.
Qed.

Lemma errors_truthy_empty : errors_truthy ∅.
Proof. intros k msg H. by rewrite lookup_empty in H. Qed.

Lemma errors_truthy_insert k msg errs :
  JS.Boolean msg = true → errors_truthy errs → errors_truthy (<[k := msg]> errs).
Proof.
  intros Hmsg Herrs k' msg'. rewrite lookup_insert. case_decide.
  - by intros [= <-].
  - apply Herrs.
Qed.

Lemma errors_truthy_checkRange f v lo hi msg errs :
  JS.Boolean msg = true → errors_truthy errs →
  errors_truthy (checkRange f v lo hi msg errs).
Proof.
  intros Hmsg Herrs. unfold checkRange.
  destruct (JS.lt v lo || JS.gt v hi); [by apply errors_truthy_insert | done].
Qed.

(** The validator only stores non-empty messages. *)
Lemma newErrors_truthy s errs : newErrors s = Some errs → errors_truthy errs.
Proof.
  unfold newErrors. intros H.
  destruct (get_number s "totalPlayers"); [| discriminate].
  destruct (get_number s "drawTime"); [| discriminate].
  destruct (get_number s "totalRounds"); [| discriminate].
  destruct (get_number s "wordCount"); [| discriminate].
  destruct (get_number s "hintsCount"); [| discriminate].
  destruct (get_boolean s "customWordsOnly") as [cwo |]; [| discriminate].
  cbn [mbind option_bind] in H.
  assert (Hbase : ∀ a b c d e', errors_truthy
    (checkRange "hintsCount" e' 0 5 "Hints must be between 0 and 5"
      (checkRange "wordCount" d 1 5 "Word count must be between 1 and 5"
        (checkRange "totalRounds" c 2 10 "Rounds must be between 2 and 10"
          (checkRange "drawTime" b 15 240
             "Draw time must be between 15 and 240 seconds"
            (checkRange "totalPlayers" a 2 20
               "Players must be between 2 and 20" ∅)))))).
  { intros. repeat (apply errors_truthy_checkRange; [reflexivity |]).
    apply errors_truthy_empty. }
  destruct cwo.
  - destruct (get_string s "customWords"); [| discriminate].
    cbn [mbind option_bind] in H.
    destruct (_ <? _)%nat; injection H as <-;
      [apply errors_truthy_insert; [reflexivity |] |]; apply Hbase.
  - injection H as <-. apply Hbase.
Qed.

Lemma handleInputChange_errors_truthy t st :
  errors_truthy (errors st) → errors_truthy (errors (handleInputChange t st)).
Proof.
  intros H k msg. rewrite handleInputChange_errors.
  destruct (JS.truthy _); [| apply H].
  rewrite lookup_delete. case_decide; [discriminate | apply H].
Qed.

(** C9.  Editing the input named [name t] stores the coerced value under
    that key of the settings and leaves every other key as it was; it leaves
    every other key of the error mapping as it was and removes the entry of
    [name t] when that field has an error (a non-empty message, the only
    kind the validator stores); the phase and the clipboard flags are not
    touched. *)
Theorem handleInputChange_frame t st :
  (∀ k, k ≠ name t →
     settings (handleInputChange t st) !! k = settings st !! k) ∧
  settings (handleInputChange t st) !! name t = Some (coerced t) ∧
  (∀ k, k ≠ name t →
     errors (handleInputChange t st) !! k = errors st !! k) ∧
  errors (handleInputChange t st) !! name t =
    (if JS.truthy (errors st !! name t) then None else errors st !! name t) ∧
  (errors_truthy (errors st) →
     errors (handleInputChange t st) !! name t = None ∧
     errors_truthy (errors (handleInputChange t st))) ∧
  (∀ s, newErrors s = Some (errors st) →
     errors (handleInputChange t st) !! name t = None) ∧
  isCreating (handleInputChange t st) = isCreating st ∧
  copied (handleInputChange t st) = copied st ∧
  codeCopied (handleInputChange t st) = codeCopied st.
Proof.
  assert (Hname : errors (handleInputChange t st) !! name t =
    (if JS.truthy (errors st !! name t) then None else errors st !! name t)).
  { rewrite handleInputChange_errors.
    destruct (JS.truthy _); [apply lookup_delete_eq | reflexivity]. }
  assert (Htruthy : errors_truthy (errors st) →
            errors (handleInputChange t st) !! name t = None).
  { intros H. rewrite Hname.
    destruct (errors st !! name t) as [msg |] eqn:Hmsg; [| reflexivity].
    simpl. by rewrite (H _ _ Hmsg). }
  split.
  { intros k Hk. rewrite handleInputChange_settings.
    by rewrite lookup_insert_ne. }
  split.
  { rewrite handleInputChange_settings. apply lookup_insert_eq. }
  split.
  { intros k Hk. rewrite handleInputChange_errors.
    destruct (JS.truthy _); [by rewrite lookup_delete_ne | reflexivity]. }
  split; [exact Hname |].
  split.
  { intros H. split; [by apply Htruthy |].
    by apply handleInputChange_errors_truthy. }
  split.
  { intros s Hs. apply Htruthy. by eapply newErrors_truthy. }
  apply handleInputChange_flags.
Qed.

Example twoErrorsState_validated :
  validateSettings (setErrors (λ _, ∅) twoErrorsState)
  = Some (false, twoErrorsState).
Proof. vm_compute. reflexivity. Qed.

(** Correcting the players field keeps the draw-time error. *)
Lemma handleInputChange_frame_witness :
  "drawTime" ≠ name (numberInput "totalPlayers" "5") ∧
  errors (handleInputChange (numberInput "totalPlayers" "5") twoErrorsState)
    !! "drawTime"
  = errors twoErrorsState !! "drawTime".
Proof.
  split; [discriminate |].
  apply (proj1 (proj2 (proj2
    (handleInputChange_frame (numberInput "totalPlayers" "5") twoErrorsState)))).
  discriminate.
Defined.

(** ** Non-numeric input *)

(** A range rule never fires on [NaN]. *)
Lemma rangeError_NaN lo hi msg : rangeError NaN lo hi msg = None.
Proof. reflexivity. Qed.

(** C2 (the code departs from it).  Emptying the players input stores
    [NaN]; validation then stores no error and returns true, and with a
    connection the create handler, and a click on the create button, send a
    request whose [totalPlayers] is [NaN]. *)
Theorem nan_passes_validation :
  let st := handleInputChange (numberInput "totalPlayers" "") initialState in
  settings st !! "totalPlayers" = Some (VNum NaN) ∧
  validateSettings st = Some (true, st) ∧
  handleCreateRoom (hostEnv None true) st =
    Some (setIsCreating true st,
          [ConsoleLog "Creating room with settings:";
           CreateRoom (<["customWords" := VArr []]>
                       (<["totalPlayers" := VNum NaN]> initialSettings))]) ∧
  (calls <$> run (mount (hostEnv None true))
               [Change (numberInput "totalPlayers" ""); ClickCreate]) =
    Some [ConsoleLog "Creating room with settings:";
          CreateRoom (<["customWords" := VArr []]>
                      (<["totalPlayers" := VNum NaN]> initialSettings))].
Proof.
  cbv zeta. split; [reflexivity |].
  split; [vm_compute; reflexivity |].
  split; vm_compute; reflexivity.
Qed.

(** The same holds for every numeric field and for every non-numeric text:
    a field holding [NaN] never gets an error. *)
Lemma newErrors_NaN_accepted s tp dt tr wc hc cwo cw :
  typed_as s tp dt tr wc hc cwo cw →
  ∃ errs, newErrors s = Some errs ∧
    (tp = NaN → errs !! "totalPlayers" = None) ∧
    (dt = NaN → errs !! "drawTime" = None) ∧
    (tr = NaN → errs !! "totalRounds" = None) ∧
    (wc = NaN → errs !! "wordCount" = None) ∧
    (hc = NaN → errs !! "hintsCount" = None).
Proof.
  intros Hty.
  destruct (newErrors_lookup _ _ _ _ _ _ _ _ Hty)
    as (errs & Hnew & E1 & E2 & E3 & E4 & E5 & _).
  exists errs. split; [assumption |].
  rewrite E1, E2, E3, E4, E5.
  repeat split; intros ->; reflexivity.
Qed.

(** ** Creating while disconnected, or twice *)

Lemma commit_nothing w :
  commit w (ctx w) (comp w) [] = w.
Proof.
  unfold commit. rewrite flushEffects_same_ctx.
  rewrite bool_decide_eq_true_2 by reflexivity.
  destruct w. cbn. by rewrite !app_nil_r.
Qed.

Lemma clickCreate_disabled e st :
  createDisabled e st = true → clickCreate e st = Some (st, []).
Proof.
  intros H. unfold clickCreate. rewrite H, andb_false_r. reflexivity.
Qed.

Lemma step_ClickCreate_disabled w :
  createDisabled (ctx w) (comp w) = true → step w ClickCreate = Some w.
Proof.
  intros H. unfold step. destruct (mounted w); cbn [negb]; [| reflexivity].
  rewrite (clickCreate_disabled _ _ H). cbn [mbind option_bind].
  by rewrite commit_nothing.
Qed.

(** The request the handler sends does not depend on the phase. *)
Lemma handleCreateRoom_ignores_phase e st b :
  snd <$> handleCreateRoom e (setIsCreating b st) =
  snd <$> handleCreateRoom e st.
Proof.
  rewrite !handleCreateRoom_unfold. cbn [settings setIsCreating].
  destruct (newErrors (settings st)) as [errs |]; [| reflexivity].
  destruct (bool_decide (size errs = 0%nat) && connected e); [| reflexivity].
  destruct (get_string (settings st) "customWords"); reflexivity.
Qed.

Example awaitingWorld_reached :
  run (mount (hostEnv None true)) [ClickCreate] = Some awaitingWorld.
Proof. vm_compute. reflexivity. Qed.




(** C8.  The create button is disabled exactly when a confirmation is
    awaited or there is no connection, and a click on a disabled button
    reaches no handler: while a confirmation is awaited a click sends no
    request and changes nothing.  The handler has no guard of its own: the
    calls it makes are the same in either phase, so called directly while a
    confirmation is awaited it would send a second request. *)
Theorem create_button_guard w :
  createDisabled (ctx w) (comp w)
    = (isCreating (comp w) || negb (connected (ctx w))) ∧
  (isCreating (comp w) = true →
     clickCreate (ctx w) (comp w) = Some (comp w, []) ∧
     step w ClickCreate = Some w) ∧
  (connected (ctx w) = false →
     clickCreate (ctx w) (comp w) = Some (comp w, []) ∧
     step w ClickCreate = Some w) ∧
  (∀ b, snd <$> handleCreateRoom (ctx w) (setIsCreating b (comp w)) =
        snd <$> handleCreateRoom (ctx w) (comp w)) ∧
  snd <$> handleCreateRoom (ctx awaitingWorld) (comp awaitingWorld)
    = Some [ConsoleLog "Creating room with settings:";
            CreateRoom (<["customWords" := VArr []]> initialSettings)].
Proof.
  split; [reflexivity |].
  split.
  { intros H. assert (createDisabled (ctx w) (comp w) = true)
      by (unfold createDisabled; by rewrite H).
    split; [by apply clickCreate_disabled | by apply step_ClickCreate_disabled]. }
  split.
  { intros H. assert (createDisabled (ctx w) (comp w) = true)
      by (unfold createDisabled; rewrite H; apply orb_true_r).
    split; [by apply clickCreate_disabled | by apply step_ClickCreate_disabled]. }
  split; [intros b; apply handleCreateRoom_ignores_phase |].
  vm_compute. reflexivity.
Qed.

(** A second click while the first request is awaited. *)
Lemma create_button_guard_witness :
  isCreating (comp awaitingWorld) = true ∧
  step awaitingWorld ClickCreate = Some awaitingWorld.
Proof.
  split; [reflexivity |].
  apply (proj1 (proj2 (create_button_guard awaitingWorld))). reflexivity.
Defined.

(** ** Confirmation and navigation *)

Lemma roomEffect_idle e st :
  isCreating st = false → roomEffect e st = (st, []).
Proof.
  intros H. unfold roomEffect. rewrite H.
  destruct (roomId e) as [rid |]; [| reflexivity].
  by rewrite andb_false_r.
Qed.

Lemma roomEffect_falsy e st :
  JS.truthy (roomId e) = false → roomEffect e st = (st, []).
Proof.
  unfold roomEffect, JS.truthy. destruct (roomId e) as [rid |]; [| reflexivity].
  by intros ->.
Qed.

Lemma roomEffect_confirm e st rid :
  roomId e = Some rid → rid ≠ "" → isCreating st = true →
  roomEffect e st =
    (setIsCreating false st,
     [ConsoleLog "Room created successfully, navigating to room:";
      Navigate ("/room/" +:+ rid)]).
Proof.
  intros Hrid Hne Hcr. unfold roomEffect. rewrite Hrid, Hcr.
  destruct rid; [congruence | reflexivity].
Qed.

(** After the effect has run, running it again does nothing. *)
Lemma roomEffect_settled e st :
  roomEffect e (roomEffect e st).1 = ((roomEffect e st).1, []).
Proof.
  unfold roomEffect at 2 3. destruct (roomId e) as [rid |] eqn:Hrid.
  - destruct (JS.Boolean rid && isCreating st) eqn:Hg; cbn [fst].
    + by apply roomEffect_idle.
    + unfold roomEffect. by rewrite Hrid, Hg.
  - cbn [fst]. unfold roomEffect. by rewrite Hrid.
Qed.

Lemma room_path_is_room_navigation rid :
  is_room_navigation (Navigate ("/room/" +:+ rid)) = true.
Proof. reflexivity. Qed.

Lemma roomEffect_budget e st :
  (List.length (roomNavigations (roomEffect e st).2)
   + (if isCreating (roomEffect e st).1 then 1 else 0)
   = if isCreating st then 1 else 0)%nat.
Proof.
  unfold roomEffect. destruct (roomId e) as [rid |]; [| reflexivity].
  destruct (JS.Boolean rid) eqn:Hb; [| reflexivity].
  destruct (isCreating st) eqn:Hc; cbn [andb fst snd]; [| by rewrite Hc].
  reflexivity.
Qed.

Lemma roomNavigations_app out1 out2 :
  roomNavigations (out1 ++ out2) = roomNavigations out1 ++ roomNavigations out2.
Proof. apply List.filter_app. Qed.

Lemma roomNavigations_playerEffect e : roomNavigations (playerEffect e) = [].
Proof. unfold playerEffect. destruct (player e); reflexivity. Qed.

Lemma flushEffects_budget old e st :
  (List.length (roomNavigations (flushEffects old e st).2)
   + (if isCreating (flushEffects old e st).1 then 1 else 0)
   = if isCreating st then 1 else 0)%nat.
Proof.
  unfold flushEffects.
  generalize (match old with
              | Some (e0, _) => negb (bool_decide (player e0 = player e))
              | None => true
              end).
  generalize (match old with
              | Some (e0, st0) =>
                  negb (bool_decide (roomId e0 = roomId e)
                        && bool_decide (isCreating st0 = isCreating st))
              | None => true
              end).
  intros run_room run_player.
  pose proof (roomEffect_budget e st) as Hroom.
  destruct run_room; [destruct (roomEffect e st) as [st2 out2] |];
    cbn [fst snd] in *; rewrite roomNavigations_app;
    (destruct run_player; [rewrite roomNavigations_playerEffect |]);
    cbn [app]; first [exact Hroom | reflexivity].
Qed.

(** A commit whose handler made no room navigation and kept the phase
    keeps the budget. *)
Lemma commit_budget w e st out :
  roomNavigations out = [] →
  isCreating st = isCreating (comp w) →
  budget (commit w e st out) = budget w.
Proof.
  intros Hout Hst. unfold commit, budget.
  pose proof (flushEffects_budget (Some (ctx w, comp w)) e st) as Hf.
  destruct (flushEffects (Some (ctx w, comp w)) e st) as [st' out'].
  cbn [fst snd calls comp] in *.
  rewrite !roomNavigations_app, Hout, !length_app. cbn [List.length app].
  rewrite <- Hst. lia.
Qed.

Lemma copyRoomLink_quiet e st :
  roomNavigations (copyRoomLink e st).2 = [] ∧
  isCreating (copyRoomLink e st).1 = isCreating st.
Proof.
  unfold copyRoomLink. destruct (roomId e) as [rid |]; [| done].
  destruct (JS.Boolean rid); done.
Qed.

Lemma copyRoomCode_quiet e st :
  roomNavigations (copyRoomCode e st).2 = [] ∧
  isCreating (copyRoomCode e st).1 = isCreating st.
Proof.
  unfold copyRoomCode. destruct (roomId e) as [rid |]; [| done].
  destruct (JS.Boolean rid); done.
Qed.

Lemma runCallback_isCreating cb st :
  isCreating (runCallback cb st) = isCreating st.
Proof. by destruct cb. Qed.

(** No event but a click on the create button can fail, and none changes
    the budget. *)
Lemma step_budget w ev :
  not_create ev = true →
  ∃ w', step w ev = Some w' ∧ budget w' = budget w.
Proof.
  intros Hev. destruct ev; try discriminate; unfold step.
  - (* Change *)
    destruct (mounted w); cbn [negb]; [| eauto].
    destruct (formRendered (ctx w) && is_input t); [| eauto].
    eexists. split; [reflexivity |].
    apply commit_budget; [reflexivity | apply handleInputChange_flags].
  - (* ClickBack *)
    destruct (mounted w); cbn [negb]; [| eauto].
    destruct (bool_decide _); [| eauto].
    eexists. split; [reflexivity |]. by apply commit_budget.
  - (* Context *)
    destruct (mounted w); cbn [negb]; [| eauto].
    eexists. split; [reflexivity |]. by apply commit_budget.
  - (* CopyLink *)
    destruct (mounted w); cbn [negb]; [| eauto].
    pose proof (copyRoomLink_quiet (ctx w) (comp w)) as [H1 H2].
    destruct (copyRoomLink (ctx w) (comp w)) as [st out].
    eexists. split; [reflexivity |]. by apply commit_budget.
  - (* CopyCode *)
    destruct (mounted w); cbn [negb]; [| eauto].
    pose proof (copyRoomCode_quiet (ctx w) (comp w)) as [H1 H2].
    destruct (copyRoomCode (ctx w) (comp w)) as [st out].
    eexists. split; [reflexivity |]. by apply commit_budget.
  - (* Timeout *)
    destruct (timers w !! i) as [[cb ms] |]; [| eauto].
    eexists. split; [reflexivity |]. unfold budget. cbn [calls comp].
    destruct (mounted w); by rewrite ?runCallback_isCreating.
  - (* Unmount *)
    destruct (mounted w); cbn [negb]; eauto.
Qed.

Lemma run_budget evs : ∀ w,
  forallb not_create evs = true →
  ∃ w', run w evs = Some w' ∧ budget w' = budget w.
Proof.
  induction evs as [| ev evs IH]; intros w Hevs; [by exists w |].
  cbn [forallb] in Hevs. apply andb_true_iff in Hevs as [Hev Hevs].
  destruct (step_budget w ev Hev) as (w1 & Hstep & Hb1).
  destruct (IH w1 Hevs) as (w' & Hrun & Hb).
  exists w'. cbn [run]. rewrite Hstep. split; [assumption | congruence].
Qed.

(** A new, non-empty room id delivered while a confirmation is awaited:
    the phase returns to Idle and the one navigation is recorded. *)
Lemma step_Context_confirm w e rid :
  mounted w = true →
  isCreating (comp w) = true →
  roomId e = Some rid → rid ≠ "" →
  roomId (ctx w) ≠ Some rid →
  ∃ w', step w (Context e) = Some w' ∧
        isCreating (comp w') = false ∧
        roomNavigations (calls w') =
          roomNavigations (calls w) ++ [Navigate ("/room/" +:+ rid)].
Proof.
  intros Hm Hcr Hrid Hne Hnew. unfold step. rewrite Hm. cbn [negb].
  eexists. split; [reflexivity |].
  unfold commit, flushEffects.
  rewrite (bool_decide_eq_false_2 (roomId (ctx w) = roomId e)) by congruence.
  cbn [andb negb]. rewrite (roomEffect_confirm e (comp w) rid) by assumption.
  cbn [comp calls isCreating setIsCreating]. split; [reflexivity |].
  rewrite !roomNavigations_app. cbn [app].
  assert (Hp : ∀ b : bool,
            roomNavigations (if b then playerEffect e else []) = []).
  { intros []; [apply roomNavigations_playerEffect | reflexivity]. }
  rewrite Hp. reflexivity.
Qed.

(** C1 as stated fails on the empty string: it is a non-null room id, it
    is observed while a confirmation is awaited, and nothing is navigated. *)
Lemma empty_room_id_not_navigated :
  isCreating (comp awaitingWorld) = true ∧
  roomId (hostEnv (Some "") true) = Some "" ∧
  roomEffect (hostEnv (Some "") true) (comp awaitingWorld)
    = (comp awaitingWorld, []) ∧
  (roomNavigations ∘ calls) <$>
    run awaitingWorld [Context (hostEnv (Some "") true)] = Some [].
Proof.
  split; [reflexivity |]. split; [reflexivity |]. split; [reflexivity |].
  vm_compute. reflexivity.
Qed.

(** C1, amended.  The room effect navigates to [/room/{roomId}] exactly
    when the room id is non-null and non-empty and a confirmation is awaited,
    and it then resets the phase to Idle: in the Idle phase nothing is
    navigated whatever the room id, a null or empty id never navigates, and
    running the effect again after it has run does nothing.  Over any
    sequence of events without a click on the create button, the navigations
    made plus one for a pending confirmation stay constant: none is made from
    Idle, at most one from AwaitingConfirmation, and a new non-empty id
    delivered while awaiting makes exactly that one. *)
Theorem navigation_once_per_cycle :
  (∀ e st, isCreating st = false → roomEffect e st = (st, [])) ∧
  (∀ e st, roomId e = None ∨ roomId e = Some "" → roomEffect e st = (st, [])) ∧
  (∀ e st rid,
     roomId e = Some rid → rid ≠ "" → isCreating st = true →
     roomEffect e st =
       (setIsCreating false st,
        [ConsoleLog "Room created successfully, navigating to room:";
         Navigate ("/room/" +:+ rid)])) ∧
  (∀ e st, roomEffect e (roomEffect e st).1 = ((roomEffect e st).1, [])) ∧
  (∀ w evs,
     forallb not_create evs = true →
     ∃ w', run w evs = Some w' ∧
       (List.length (roomNavigations (calls w'))
        + (if isCreating (comp w') then 1 else 0)
        = List.length (roomNavigations (calls w))
          + (if isCreating (comp w) then 1 else 0))%nat) ∧
  (∀ w e rid,
     mounted w = true → isCreating (comp w) = true →
     roomId e = Some rid → rid ≠ "" → roomId (ctx w) ≠ Some rid →
     ∃ w', step w (Context e) = Some w' ∧
       isCreating (comp w') = false ∧
       roomNavigations (calls w') =
         roomNavigations (calls w) ++ [Navigate ("/room/" +:+ rid)]).
Proof.
  split; [exact roomEffect_idle |].
  split.
  { intros e st [H | H]; apply roomEffect_falsy; by rewrite H. }
  split; [exact roomEffect_confirm |].
  split; [exact roomEffect_settled |].
  split; [| exact step_Context_confirm].
  intros w evs Hevs. destruct (run_budget evs w Hevs) as (w' & Hrun & Hb).
  exists w'. split; assumption.
Qed.

(** The room id ABCD12 arrives, is seen again, and the host edits a field:
    one navigation. *)
Lemma navigation_once_per_cycle_witness :
  forallb not_create
    [Context (hostEnv (Some "ABCD12") true);
     Context (hostEnv (Some "ABCD12") true);
     Change (numberInput "drawTime" "90");
     Context (hostEnv (Some "ABCD12") false)] = true ∧
  ∃ w', run awaitingWorld
          [Context (hostEnv (Some "ABCD12") true);
           Context (hostEnv (Some "ABCD12") true);
           Change (numberInput "drawTime" "90");
           Context (hostEnv (Some "ABCD12") false)] = Some w' ∧
    (List.length (roomNavigations (calls w'))
     + (if isCreating (comp w') then 1 else 0)
     = List.length (roomNavigations (calls awaitingWorld))
       + (if isCreating (comp awaitingWorld) then 1 else 0))%nat.
Proof.
  split; [reflexivity |].
  apply (proj1 (proj2 (proj2 (proj2 (proj2 navigation_once_per_cycle))))).
  reflexivity.
Defined.

Example navigation_once_calls :
  (roomNavigations ∘ calls) <$>
    run awaitingWorld
      [Context (hostEnv (Some "ABCD12") true);
       Context (hostEnv (Some "ABCD12") true);
       Change (numberInput "drawTime" "90");
       Context (hostEnv (Some "ABCD12") false)]
  = Some [Navigate "/room/ABCD12"].
Proof. vm_compute. reflexivity. Qed.

(** A room id left over from an earlier session navigates nowhere while
    the page is Idle. *)
Example stale_room_id_ignored :
  calls <$> run (mount (hostEnv (Some "OLD123") true))
              [Change (numberInput "drawTime" "90");
               Context (hostEnv (Some "OLD123") false);
               Context (hostEnv (Some "OLD456") true)]
  = Some [].
Proof. vm_compute. reflexivity. Qed.

(** With a room id still held by the session when the host clicks the
    create button, the effect that follows the click navigates to it. *)
Example held_room_id_followed_on_create :
  calls <$> run (mount (hostEnv (Some "OLD123") true)) [ClickCreate]
  = Some [ConsoleLog "Creating room with settings:";
          CreateRoom (<["customWords" := VArr []]> initialSettings);
          ConsoleLog "Room created successfully, navigating to room:";
          Navigate "/room/OLD123"].
Proof. vm_compute. reflexivity. Qed.

(** ** Losing the identity *)

(** What the commit of new context values does when the player goes
    absent: the redirect, then the room effect if the room id changed. *)
Lemma step_Context_identity_lost w e p :
  mounted w = true →
  player (ctx w) = Some p →
  player e = None →
  step w (Context e) =
    let r := if bool_decide (roomId (ctx w) = roomId e) then (comp w, [])
             else roomEffect e (comp w) in
    Some {| ctx := e; comp := r.1; timers := timers w; mounted := true;
            calls := calls w ++ Navigate "/" :: r.2 |}.
Proof.
  intros Hm Hp He. unfold step. rewrite Hm. cbn [negb].
  unfold commit, flushEffects. cbn [ctx comp].
  rewrite (bool_decide_eq_false_2 (player (ctx w) = player e)) by congruence.
  rewrite (bool_decide_eq_true_2 (isCreating (comp w) = isCreating (comp w)))
    by reflexivity.
  rewrite andb_true_r. cbn [negb]. unfold playerEffect. rewrite He.
  destruct (bool_decide (roomId (ctx w) = roomId e)); cbn [negb].
  - cbv zeta. cbn [fst snd app scheduled omap list_omap].
    by rewrite app_nil_r, Hm.
  - unfold roomEffect. destruct (roomId e) as [rid |];
      [destruct (JS.Boolean rid && isCreating (comp w)) |];
      cbv zeta; cbn [fst snd app scheduled omap list_omap];
      by rewrite app_nil_r, Hm.
Qed.

(** Once unmounted, the page makes no further call, whatever happens. *)
Lemma step_unmounted w ev :
  mounted w = false →
  ∃ w', step w ev = Some w' ∧ mounted w' = false ∧ calls w' = calls w ∧
        comp w' = comp w.
Proof.
  intros Hm. unfold step. rewrite Hm. cbn [negb].
  destruct ev; eauto.
  destruct (timers w !! i) as [[cb ms] |]; eauto.
Qed.

Lemma run_unmounted evs : ∀ w,
  mounted w = false →
  ∃ w', run w evs = Some w' ∧ mounted w' = false ∧ calls w' = calls w ∧
        comp w' = comp w.
Proof.
  induction evs as [| ev evs IH]; intros w Hm; [by exists w |].
  destruct (step_unmounted w ev Hm) as (w1 & Hstep & Hm1 & Hc1 & Hs1).
  destruct (IH w1 Hm1) as (w' & Hrun & Hm' & Hc' & Hs').
  exists w'. cbn [run]. rewrite Hstep. repeat split; congruence.
Qed.

(** C6 as stated fails: the identity is lost and the room id ABCD12
    arrives in the same render while the confirmation is awaited; the page
    redirects to the start page and then navigates into the room. *)
Lemma identity_lost_still_navigates :
  isCreating (comp awaitingWorld) = true ∧
  player (lostEnv (Some "ABCD12")) = None ∧
  calls <$> run awaitingWorld [Context (lostEnv (Some "ABCD12"))]
  = Some (calls awaitingWorld ++
          [Navigate "/";
           ConsoleLog "Room created successfully, navigating to room:";
           Navigate "/room/ABCD12"]).
Proof.
  split; [reflexivity |]. split; [reflexivity |]. vm_compute. reflexivity.
Qed.

(** The same when the room id arrives after the identity was lost, on a
    page that is still mounted. *)
Example identity_lost_then_room_id :
  calls <$> run awaitingWorld
              [Context (lostEnv None); Context (lostEnv (Some "ABCD12"))]
  = Some (calls awaitingWorld ++
          [Navigate "/";
           ConsoleLog "Room created successfully, navigating to room:";
           Navigate "/room/ABCD12"]).
Proof. vm_compute. reflexivity. Qed.

(** C6, amended.  When the player goes absent the page redirects to the
    start page, in either phase, and does not reset the phase: with an
    unchanged, null or empty room id the state is left as it was, and a new
    non-empty room id delivered in the same render while a confirmation is
    awaited is still navigated to, after the redirect.  No call is made once
    the page has been unmounted. *)
Theorem identity_lost_redirects w e p :
  mounted w = true →
  player (ctx w) = Some p →
  player e = None →
  ∃ w',
    step w (Context e) = Some w' ∧
    (∃ rest, calls w' = calls w ++ Navigate "/" :: rest) ∧
    (roomId (ctx w) = roomId e ∨ JS.truthy (roomId e) = false →
       comp w' = comp w ∧ calls w' = calls w ++ [Navigate "/"]) ∧
    (∀ rid, isCreating (comp w) = true →
       roomId e = Some rid → rid ≠ "" → roomId (ctx w) ≠ Some rid →
       isCreating (comp w') = false ∧
       calls w' = calls w ++
         [Navigate "/";
          ConsoleLog "Room created successfully, navigating to room:";
          Navigate ("/room/" +:+ rid)]) ∧
    (∀ evs w1, step w' Unmount = Some w1 →
       ∃ w2, run w1 evs = Some w2 ∧ calls w2 = calls w1).
Proof.
  intros Hm Hp He. rewrite (step_Context_identity_lost w e p Hm Hp He).
  eexists. split; [reflexivity |]. cbn [calls comp].
  split; [eauto |]. split; [| split].
  - intros [Hsame | Hfalsy].
    + by rewrite bool_decide_eq_true_2.
    + rewrite (roomEffect_falsy _ _ Hfalsy). by destruct (bool_decide _).
  - intros rid Hcr Hrid Hne Hnew.
    rewrite bool_decide_eq_false_2 by congruence.
    by rewrite (roomEffect_confirm e (comp w) rid).
  - intros evs w1 Hun. cbn in Hun. injection Hun as <-.
    destruct (run_unmounted evs
                {| ctx := e;
                   comp := (if bool_decide (roomId (ctx w) = roomId e)
                            then (comp w, []) else roomEffect e (comp w)).1;
                   timers := timers w; mounted := false;
                   calls := calls w ++ Navigate "/" ::
                            (if bool_decide (roomId (ctx w) = roomId e)
                             then (comp w, [])
                             else roomEffect e (comp w)).2 |} eq_refl)
      as (w2 & Hrun & _ & Hcalls & _).
    exists w2. split; assumption.
Qed.

(** The identity is lost while the first request is awaited. *)
Lemma identity_lost_redirects_witness :
  mounted awaitingWorld = true ∧
  player (ctx awaitingWorld) = Some "host" ∧
  player (lostEnv None) = None ∧
  ∃ w', step awaitingWorld (Context (lostEnv None)) = Some w' ∧
        ∃ rest, calls w' = calls awaitingWorld ++ Navigate "/" :: rest.
Proof.
  split; [reflexivity |]. split; [reflexivity |]. split; [reflexivity |].
  destruct (identity_lost_redirects awaitingWorld (lostEnv None) "host"
              eq_refl eq_refl eq_refl) as (w' & Hstep & Hcalls & _).
  exists w'. split; assumption.
Defined.

(** ** Clipboard feedback timers *)







Example copiedWorld_reached :
  run (mount (hostEnv (Some "ABCD12") true)) [CopyLink] = Some copiedWorld.
Proof. vm_compute. reflexivity. Qed.


(** ** Reachable pages *)

Lemma commit_settings w e st out :
  settings (comp (commit w e st out)) = settings st.
Proof.
  unfold commit, flushEffects.
  destruct (negb (bool_decide (roomId (ctx w) = roomId e)
                  && bool_decide (isCreating (comp w) = isCreating st)));
    [| reflexivity].
  unfold roomEffect. destruct (roomId e) as [rid |]; [| reflexivity].
  by destruct (JS.Boolean rid && isCreating st).
Qed.

Lemma clickCreate_well_typed e st :
  well_typed (settings st) →
  ∃ st' out, clickCreate e st = Some (st', out) ∧ settings st' = settings st.
Proof.
  intros Hwt. unfold clickCreate.
  destruct (formRendered e && negb (createDisabled e st)); [| eauto].
  apply well_typed_typed_as in Hwt
    as (tp & dt & tr & wc & hc & cwo & cw & Hty).
  destruct (newErrors_lookup _ _ _ _ _ _ _ _ Hty) as (errs & Hnew & _).
  rewrite handleCreateRoom_unfold, Hnew.
  destruct Hty as (_ & _ & _ & _ & _ & _ & Hcw).
  apply get_string_Some in Hcw. rewrite Hcw.
  destruct (bool_decide (size errs = 0%nat) && connected e); eauto.
Qed.

(** On a page whose settings hold values of the declared types every event
    is handled, and the settings stay so typed. *)
Lemma step_well_typed w ev :
  well_typed (settings (comp w)) →
  ∃ w', step w ev = Some w' ∧ well_typed (settings (comp w')).
Proof.
  intros Hwt. destruct ev; unfold step;
    try (destruct (mounted w) eqn:Hm; cbn [negb]; [| by eauto]).
  - destruct (formRendered (ctx w) && is_input t) eqn:Hg; [| by eauto].
    apply andb_true_iff in Hg as [_ Hin].
    eexists. split; [reflexivity |]. rewrite commit_settings.
    by apply handleInputChange_well_typed.
  - destruct (clickCreate_well_typed (ctx w) (comp w) Hwt)
      as (st' & out & Hclick & Hset).
    rewrite Hclick. cbn [mbind option_bind].
    eexists. split; [reflexivity |]. by rewrite commit_settings, Hset.
  - destruct (bool_decide _); [| by eauto].
    eexists. split; [reflexivity |]. by rewrite commit_settings.
  - eexists. split; [reflexivity |]. by rewrite commit_settings.
  - assert (Hs : settings (copyRoomLink (ctx w) (comp w)).1 = settings (comp w)).
    { unfold copyRoomLink. destruct (roomId (ctx w)) as [rid |]; [| done].
      by destruct (JS.Boolean rid). }
    destruct (copyRoomLink (ctx w) (comp w)) as [st out]. cbn [fst] in Hs.
    eexists. split; [reflexivity |]. by rewrite commit_settings, Hs.
  - assert (Hs : settings (copyRoomCode (ctx w) (comp w)).1 = settings (comp w)).
    { unfold copyRoomCode. destruct (roomId (ctx w)) as [rid |]; [| done].
      by destruct (JS.Boolean rid). }
    destruct (copyRoomCode (ctx w) (comp w)) as [st out]. cbn [fst] in Hs.
    eexists. split; [reflexivity |]. by rewrite commit_settings, Hs.
  - destruct (timers w !! i) as [[cb ms] |]; [| by eauto].
    eexists. split; [reflexivity |]. cbn [comp].
    destruct (mounted w); [| assumption]. by destruct cb.
  - eauto.
Qed.

Lemma mount_well_typed e : well_typed (settings (comp (mount e))).
Proof.
  unfold mount, flushEffects. rewrite (roomEffect_idle e initialState eq_refl).
  exact initialSettings_well_typed.
Qed.

(** Every sequence of events on a freshly mounted page runs to the end. *)
Lemma run_total e evs :
  ∃ w, run (mount e) evs = Some w ∧ well_typed (settings (comp w)).
Proof.
  generalize (mount e) (mount_well_typed e). clear e.
  induction evs as [| ev evs IH]; intros w Hwt; [by exists w |].
  destruct (step_well_typed w ev Hwt) as (w1 & Hstep & Hwt1).
  destruct (IH w1 Hwt1) as (w' & Hrun & Hwt').
  exists w'. cbn [run]. by rewrite Hstep.
Qed.

Lemma commit_errors w e st out :
  errors (comp (commit w e st out)) = errors st.
Proof.
  unfold commit, flushEffects.
  destruct (negb (bool_decide (roomId (ctx w) = roomId e)
                  && bool_decide (isCreating (comp w) = isCreating st)));
    [| reflexivity].
  unfold roomEffect. destruct (roomId e) as [rid |]; [| reflexivity].
  by destruct (JS.Boolean rid && isCreating st).
Qed.

Lemma clickCreate_errors_truthy e st st' out :
  errors_truthy (errors st) →
  clickCreate e st = Some (st', out) →
  errors_truthy (errors st').
Proof.
  intros Htr. unfold clickCreate.
  destruct (formRendered e && negb (createDisabled e st));
    [| by intros [= <- <-]].
  rewrite handleCreateRoom_unfold.
  destruct (newErrors (settings st)) as [errs |] eqn:Hnew; [| discriminate].
  apply newErrors_truthy in Hnew.
  destruct (bool_decide (size errs = 0%nat) && connected e).
  - destruct (get_string (settings st) "customWords"); [| discriminate].
    by intros [= <- <-].
  - by intros [= <- <-].
Qed.

(** The messages on display are non-empty on every page reached from a
    mount, so there an edit always removes the entry of the edited field. *)
Lemma step_errors_truthy w ev w' :
  errors_truthy (errors (comp w)) →
  step w ev = Some w' →
  errors_truthy (errors (comp w')).
Proof.
  intros Htr Hstep. destruct ev; unfold step in Hstep;
    try (destruct (mounted w) eqn:Hm; cbn [negb] in Hstep;
         [| by injection Hstep as <-]).
  - destruct (formRendered (ctx w) && is_input t); injection Hstep as <-;
      [| assumption].
    rewrite commit_errors. by apply handleInputChange_errors_truthy.
  - destruct (clickCreate (ctx w) (comp w)) as [[st out] |] eqn:Hclick;
      [| discriminate].
    cbn [mbind option_bind] in Hstep. injection Hstep as <-.
    rewrite commit_errors. by eapply clickCreate_errors_truthy.
  - destruct (bool_decide _); injection Hstep as <-; [| assumption].
    by rewrite commit_errors.
  - injection Hstep as <-. by rewrite commit_errors.
  - assert (Hs : errors (copyRoomLink (ctx w) (comp w)).1 = errors (comp w)).
    { unfold copyRoomLink. destruct (roomId (ctx w)) as [rid |]; [| done].
      by destruct (JS.Boolean rid). }
    destruct (copyRoomLink (ctx w) (comp w)) as [st out]. cbn [fst] in Hs.
    injection Hstep as <-. by rewrite commit_errors, Hs.
  - assert (Hs : errors (copyRoomCode (ctx w) (comp w)).1 = errors (comp w)).
    { unfold copyRoomCode. destruct (roomId (ctx w)) as [rid |]; [| done].
      by destruct (JS.Boolean rid). }
    destruct (copyRoomCode (ctx w) (comp w)) as [st out]. cbn [fst] in Hs.
    injection Hstep as <-. by rewrite commit_errors, Hs.
  - destruct (timers w !! i) as [[cb ms] |]; injection Hstep as <-;
      [| assumption].
    cbn [comp]. destruct (mounted w); [| assumption]. by destruct cb.
  - injection Hstep as <-. assumption.
Qed.

Lemma run_errors_truthy e evs w :
  run (mount e) evs = Some w → errors_truthy (errors (comp w)).
Proof.
  assert (H0 : errors_truthy (errors (comp (mount e)))).
  { unfold mount, flushEffects.
    rewrite (roomEffect_idle e initialState eq_refl). apply errors_truthy_empty. }
  revert H0. generalize (mount e). clear e.
  induction evs as [| ev evs IH]; intros w0 H0 Hrun; cbn [run] in Hrun.
  - by injection Hrun as <-.
  - destruct (step w0 ev) as [w1 |] eqn:Hstep; [| discriminate].
    eapply IH; [| exact Hrun]. by eapply step_errors_truthy.
Qed.

(* ================================================================== *)
(** * Further properties *)

(** ** Edits *)

Lemma cstate_eq st1 st2 :
  isCreating st1 = isCreating st2 → settings st1 = settings st2 →
  copied st1 = copied st2 → codeCopied st1 = codeCopied st2 →
  errors st1 = errors st2 → st1 = st2.
Proof. destruct st1, st2. cbn. by intros -> -> -> -> ->. Qed.

(** X1.  Edits of two different fields can be made in either order, and
    of two edits of the same field only the later one counts: the whole
    component state (settings, errors, phase, flags) comes out the same. *)
Theorem handleInputChange_compose t1 t2 st :
  (name t1 ≠ name t2 →
     handleInputChange t1 (handleInputChange t2 st) =
     handleInputChange t2 (handleInputChange t1 st)) ∧
  (name t1 = name t2 →
     handleInputChange t2 (handleInputChange t1 st) = handleInputChange t2 st).
Proof.
  pose proof (handleInputChange_flags t1 st) as (F1 & F2 & F3).
  pose proof (handleInputChange_flags t2 st) as (G1 & G2 & G3).
  pose proof (handleInputChange_flags t1 (handleInputChange t2 st))
    as (A1 & A2 & A3).
  pose proof (handleInputChange_flags t2 (handleInputChange t1 st))
    as (B1 & B2 & B3).
  split; intros Hn; apply cstate_eq; try congruence.
  - rewrite !handleInputChange_settings. by apply insert_insert_ne.
  - rewrite !handleInputChange_errors.
    assert (E1 : errors st !! name t1 =
                 (if JS.truthy (errors st !! name t2)
                  then delete (name t2) (errors st) else errors st) !! name t1).
    { destruct (JS.truthy (errors st !! name t2));
        [by rewrite lookup_delete_ne | reflexivity]. }
    assert (E2 : errors st !! name t2 =
                 (if JS.truthy (errors st !! name t1)
                  then delete (name t1) (errors st) else errors st) !! name t2).
    { destruct (JS.truthy (errors st !! name t1));
        [by rewrite lookup_delete_ne | reflexivity]. }
    rewrite <- E1, <- E2.
    destruct (JS.truthy (errors st !! name t1)),
      (JS.truthy (errors st !! name t2)); try reflexivity.
    apply delete_delete.
  - rewrite !handleInputChange_settings, Hn. apply insert_insert_eq.
  - rewrite !handleInputChange_errors, Hn.
    destruct (JS.truthy (errors st !! name t2)) eqn:Ht.
    + rewrite lookup_delete_eq. cbn. reflexivity.
    + by rewrite Ht.
Qed.

(** The players and the draw time, typed in either order. *)
Lemma handleInputChange_compose_witness :
  name (numberInput "totalPlayers" "8") ≠ name (numberInput "drawTime" "90") ∧
  handleInputChange (numberInput "totalPlayers" "8")
    (handleInputChange (numberInput "drawTime" "90") twoErrorsState) =
  handleInputChange (numberInput "drawTime" "90")
    (handleInputChange (numberInput "totalPlayers" "8") twoErrorsState).
Proof.
  split; [discriminate |].
  apply (proj1 (handleInputChange_compose (numberInput "totalPlayers" "8")
                  (numberInput "drawTime" "90") twoErrorsState)).
  discriminate.
Defined.

(** ** Validation *)

(** X2.  Validation depends on the settings alone and replaces the error
    mapping wholesale: whatever errors were stored before, the outcome is the
    same; validating again changes nothing; and the settings, the phase and
    the clipboard flags are left as they were. *)
Theorem validateSettings_idempotent st valid st' :
  validateSettings st = Some (valid, st') →
  validateSettings st' = Some (valid, st') ∧
  (∀ f, validateSettings (setErrors f st) = Some (valid, st')) ∧
  Some (errors st') = newErrors (settings st) ∧
  settings st' = settings st ∧
  isCreating st' = isCreating st ∧
  copied st' = copied st ∧
  codeCopied st' = codeCopied st.
Proof.
  unfold validateSettings. intros H.
  destruct (newErrors (settings st)) as [errs |] eqn:Hnew; [| discriminate].
  cbn [mbind option_bind] in H. injection H as <- <-.
  cbn [settings setErrors errors isCreating copied codeCopied].
  rewrite Hnew. cbn [mbind option_bind]. repeat split; reflexivity.
Qed.

Lemma validateSettings_idempotent_witness :
  validateSettings editedState = Some (false, twoErrorsState) ∧
  validateSettings twoErrorsState = Some (false, twoErrorsState).
Proof.
  assert (H : validateSettings editedState = Some (false, twoErrorsState))
    by (vm_compute; reflexivity).
  split; [exact H |].
  apply (proj1 (validateSettings_idempotent _ _ _ H)).
Defined.

(** X3.  The validator reads the five numeric fields and the
    [customWordsOnly] flag, and the custom words only when the flag is set:
    two settings objects that agree there get the same verdict, so no other
    key, and no custom-words text while the flag is off, can raise or hide an
    error. *)
Theorem newErrors_reads s1 s2 :
  Forall (λ k, s1 !! k = s2 !! k) ruleKeys →
  (s1 !! "customWordsOnly" = Some (VBool true) →
     s1 !! "customWords" = s2 !! "customWords") →
  newErrors s1 = newErrors s2.
Proof.
  unfold ruleKeys. intros Hkeys Hcw.
  repeat (apply Forall_cons in Hkeys as [? Hkeys]).
  unfold newErrors, get_number, get_boolean, get_string.
  repeat match goal with H : s1 !! _ = s2 !! _ |- _ => rewrite <- H; clear H end.
  destruct (s1 !! "totalPlayers") as [[] |]; try reflexivity.
  destruct (s1 !! "drawTime") as [[] |]; try reflexivity.
  destruct (s1 !! "totalRounds") as [[] |]; try reflexivity.
  destruct (s1 !! "wordCount") as [[] |]; try reflexivity.
  destruct (s1 !! "hintsCount") as [[] |]; try reflexivity.
  destruct (s1 !! "customWordsOnly") as [[[] | | |] |]; try reflexivity.
  cbn [mbind option_bind]. by rewrite <- Hcw.
Qed.

(** Free text in the words box and a stray key, with the flag off. *)
Lemma newErrors_reads_witness :
  newErrors (<["customWords" := VStr "one, two"]>
             (<["theme" := VStr "dark"]> initialSettings))
  = newErrors initialSettings.
Proof.
  apply newErrors_reads.
  - repeat constructor.
  - intros H. vm_compute in H. discriminate H.
Defined.

(** ** The create handler *)

Lemma rangeError_None v lo hi msg :
  rangeError v lo hi msg = None → ∀ z, v = Num z → lo ≤ z ≤ hi.
Proof.
  unfold rangeError, JS.lt, JS.gt. intros H z ->.
  destruct (Z.ltb_spec z lo); [discriminate |].
  destruct (Z.ltb_spec hi z); [discriminate | lia].
Qed.

(** X4.  On settings of the declared types the create handler always
    returns, stores the validation result, and keeps settings and clipboard
    flags.  It sends a request exactly when validation finds nothing and the
    socket is connected, and then it is a single request and the phase
    becomes AwaitingConfirmation; in every other case it makes no call at all
    and the phase stays as it was. *)
Theorem handleCreateRoom_outcome e st :
  well_typed (settings st) →
  ∃ errs st' out,
    newErrors (settings st) = Some errs ∧
    handleCreateRoom e st = Some (st', out) ∧
    errors st' = errs ∧
    settings st' = settings st ∧
    copied st' = copied st ∧
    codeCopied st' = codeCopied st ∧
    (errs = ∅ ∧ connected e = true →
       isCreating st' = true ∧
       ∃ payload, out = [ConsoleLog "Creating room with settings:";
                         CreateRoom payload]) ∧
    (errs ≠ ∅ ∨ connected e = false →
       isCreating st' = isCreating st ∧ out = []).
Proof.
  intros Hwt.
  apply well_typed_typed_as in Hwt
    as (tp & dt & tr & wc & hc & cwo & cw & Hty).
  destruct (newErrors_lookup _ _ _ _ _ _ _ _ Hty) as (errs & Hnew & _).
  destruct Hty as (_ & _ & _ & _ & _ & _ & Hcw).
  apply get_string_Some in Hcw.
  rewrite handleCreateRoom_unfold, Hnew, Hcw.
  destruct (bool_decide (size errs = 0%nat) && connected e) eqn:Hgo.
  - apply andb_true_iff in Hgo as [Hsz Hconn].
    apply bool_decide_size_empty in Hsz.
    eexists errs, _, _. split; [reflexivity |]. split; [reflexivity |].
    repeat (split; [reflexivity |]). split.
    + intros _. split; [reflexivity | eauto].
    + intros [Hne | Hoff]; congruence.
  - eexists errs, _, _. split; [reflexivity |]. split; [reflexivity |].
    repeat (split; [reflexivity |]). split.
    + intros [-> Hconn]. rewrite Hconn in Hgo. discriminate Hgo.
    + intros _. split; reflexivity.
Qed.

Lemma handleCreateRoom_outcome_witness :
  well_typed (settings twoErrorsState) ∧
  ∃ errs st' out,
    newErrors (settings twoErrorsState) = Some errs ∧
    handleCreateRoom (hostEnv None true) twoErrorsState = Some (st', out).
Proof.
  assert (H : well_typed (settings twoErrorsState)).
  { apply well_typed_typed_as.
    exists (Num 1), (Num 1), (Num 3), (Num 3), (Num 2), false, "".
    repeat split; reflexivity. }
  split; [exact H |].
  destruct (handleCreateRoom_outcome (hostEnv None true) twoErrorsState H)
    as (errs & st' & out & H1 & H2 & _).
  exists errs, st', out. split; assumption.
Defined.

(** X5.  What reaches the server is inside the rules: whenever the handler
    sends a request built from integer fields, the payload carries those
    same integers, each within its range, the same flag, and the parsed word
    list, which has at least 10 words when only custom words are to be
    used; every other key of the settings is passed on unchanged. *)
Theorem request_within_rules e st st' out payload a b c d h cwo cw :
  handleCreateRoom e st = Some (st', out) →
  CreateRoom payload ∈ out →
  typed_as (settings st) (Num a) (Num b) (Num c) (Num d) (Num h) cwo cw →
  (2 ≤ a ≤ 20 ∧ 15 ≤ b ≤ 240 ∧ 2 ≤ c ≤ 10 ∧ 1 ≤ d ≤ 5 ∧ 0 ≤ h ≤ 5) ∧
  (cwo = true → (10 ≤ List.length (parseWords cw))%nat) ∧
  delete "customWords" payload = delete "customWords" (settings st) ∧
  payload !! "totalPlayers" = Some (VNum (Num a)) ∧
  payload !! "drawTime" = Some (VNum (Num b)) ∧
  payload !! "totalRounds" = Some (VNum (Num c)) ∧
  payload !! "wordCount" = Some (VNum (Num d)) ∧
  payload !! "hintsCount" = Some (VNum (Num h)) ∧
  payload !! "customWordsOnly" = Some (VBool cwo) ∧
  payload !! "customWords" = Some (VArr (parseWords cw)).
Proof.
  intros Hrun Hin Hty.
  destruct (newErrors_lookup _ _ _ _ _ _ _ _ Hty)
    as (errs & Hnew & E1 & E2 & E3 & E4 & E5 & E6 & _).
  rewrite handleCreateRoom_unfold, Hnew in Hrun.
  destruct (bool_decide (size errs = 0%nat)) eqn:Hsz;
    [| injection Hrun as <- <-; by apply elem_of_nil in Hin].
  apply bool_decide_size_empty in Hsz. subst errs.
  rewrite lookup_empty in E1, E2, E3, E4, E5, E6.
  destruct (connected e); cbn [andb] in Hrun;
    [| injection Hrun as <- <-; by apply elem_of_nil in Hin].
  destruct Hty as (T1 & T2 & T3 & T4 & T5 & T6 & T7).
  rewrite (proj2 (get_string_Some _ _ _) T7) in Hrun.
  injection Hrun as <- <-.
  apply elem_of_cons in Hin as [Hin | Hin]; [discriminate |].
  apply list_elem_of_singleton in Hin. injection Hin as ->.
  split.
  { pose proof (rangeError_None _ _ _ _ (eq_sym E1) a eq_refl).
    pose proof (rangeError_None _ _ _ _ (eq_sym E2) b eq_refl).
    pose proof (rangeError_None _ _ _ _ (eq_sym E3) c eq_refl).
    pose proof (rangeError_None _ _ _ _ (eq_sym E4) d eq_refl).
    pose proof (rangeError_None _ _ _ _ (eq_sym E5) h eq_refl).
    tauto. }
  split.
  { intros ->. cbn [andb] in E6.
    destruct (Nat.ltb_spec (List.length (parseWords cw)) 10);
      [discriminate | assumption]. }
  split; [by rewrite delete_insert_eq |].
  rewrite !lookup_insert_ne by done. rewrite lookup_insert_eq.
  repeat split; assumption.
Qed.

Lemma request_within_rules_witness :
  handleCreateRoom (hostEnv None true) initialState =
    Some (setIsCreating true initialState,
          [ConsoleLog "Creating room with settings:";
           CreateRoom (<["customWords" := VArr []]> initialSettings)]) ∧
  (2 ≤ 6 ≤ 20 ∧ 15 ≤ 60 ≤ 240 ∧ 2 ≤ 3 ≤ 10 ∧ 1 ≤ 3 ≤ 5 ∧ 0 ≤ 2 ≤ 5).
Proof.
  assert (H : handleCreateRoom (hostEnv None true) initialState =
    Some (setIsCreating true initialState,
          [ConsoleLog "Creating room with settings:";
           CreateRoom (<["customWords" := VArr []]> initialSettings)]))
    by apply handleCreateRoom_initial.
  split; [exact H |].
  refine (proj1 (request_within_rules _ _ _ _ _ 6 60 3 3 2 false "" H _
                   initialSettings_typed)).
  apply elem_of_cons. right. apply list_elem_of_singleton. reflexivity.
Defined.

(** ** The parsed word list *)

Lemma sep_free_trimStart sep s :
  sep_free sep s = true → sep_free sep (JS.trimStart s) = true.
Proof.
  induction s as [| c r IH]; [done |]. cbn [JS.trimStart sep_free].
  intros H. apply andb_true_iff in H as [Hc Hr].
  destruct (JS.is_space c); [by apply IH |].
  cbn [sep_free]. by rewrite Hc, Hr.
Qed.

Lemma sep_free_trimEnd sep s :
  sep_free sep s = true → sep_free sep (JS.trimEnd s) = true.
Proof.
  induction s as [| c r IH]; [done |]. cbn [JS.trimEnd sep_free].
  intros H. apply andb_true_iff in H as [Hc Hr]. specialize (IH Hr).
  destruct (JS.trimEnd r) as [| d t].
  - destruct (JS.is_space c); [reflexivity |]. cbn [sep_free]. by rewrite Hc.
  - cbn [sep_free] in *. by rewrite Hc, IH.
Qed.

Lemma trim_clean_word p :
  sep_free "," p = true → JS.Boolean (JS.trim p) = true →
  clean_word (JS.trim p) = true.
Proof.
  intros Hp Hb. destruct (trim_spec p) as (l & r & _ & _ & _ & Hs & He).
  unfold clean_word. rewrite Hb, Hs, He.
  unfold JS.trim. rewrite sep_free_trimEnd; [reflexivity |].
  by apply sep_free_trimStart.
Qed.

Lemma parseWords_output_clean raw :
  Forall (λ w, clean_word w = true) (parseWords raw).
Proof.
  unfold parseWords. destruct (split_pieces "," raw) as [Hall _].
  induction Hall as [| p ps Hp _ IH]; [constructor |].
  cbn [List.map List.filter].
  destruct (JS.Boolean (JS.trim p)) eqn:Hb; [| exact IH].
  constructor; [by apply trim_clean_word | exact IH].
Qed.

(** X6.  Every word the parser returns is non-empty, holds no comma and has
    no white space at either end, whatever the text; so writing the parsed
    words back with commas and parsing again gives the same list. *)
Theorem parseWords_idempotent raw :
  Forall (λ w, clean_word w = true) (parseWords raw) ∧
  parseWords (JS.join "," (parseWords raw)) = parseWords raw.
Proof.
  split; [apply parseWords_output_clean |].
  apply parseWords_clean, parseWords_output_clean.
Qed.

Lemma all_space_app l r :
  all_space (l +:+ r) = all_space l && all_space r.
Proof.
  induction l as [| c l IH]; [reflexivity |].
  rewrite append_cons. cbn [all_space]. by rewrite IH, andb_assoc.
Qed.

Lemma trimStart_all_space p : all_space p = true → JS.trimStart p = "".
Proof.
  induction p as [| c r IH]; [done |]. cbn [all_space JS.trimStart].
  intros H. apply andb_true_iff in H as [-> Hr]. by apply IH.
Qed.

Lemma trim_empty_iff p : JS.Boolean (JS.trim p) = false ↔ all_space p = true.
Proof.
  split.
  - intros Hb. destruct (trim_spec p) as (l & r & Hp & Hl & Hr & _).
    destruct (JS.trim p); [| discriminate]. rewrite append_nil in Hp.
    by rewrite Hp, all_space_app, Hl, Hr.
  - intros H. unfold JS.trim. by rewrite trimStart_all_space.
Qed.

Lemma blank_split s : blank s = forallb all_space (JS.split "," s).
Proof.
  induction s as [| c r IH]; [reflexivity |]. cbn [blank JS.split].
  destruct (Ascii.eqb_spec c ",") as [-> | Hne].
  - cbn [forallb all_space]. by rewrite IH.
  - pose proof (split_not_nil "," r) as Hnil. rewrite orb_false_r, IH.
    destruct (JS.split "," r) as [| q qs]; [congruence |].
    cbn [forallb all_space]. by rewrite andb_assoc.
Qed.

Lemma split_length s : List.length (JS.split "," s) = S (commas s).
Proof.
  induction s as [| c r IH]; [reflexivity |]. cbn [JS.split commas].
  pose proof (split_not_nil "," r) as Hnil.
  destruct (Ascii.eqb c ","); cbn [List.length]; [by rewrite IH |].
  destruct (JS.split "," r) as [| q qs]; [congruence |].
  cbn [List.length] in *. by rewrite IH.
Qed.

Lemma filter_length_le {A} (f : A → bool) l :
  (List.length (List.filter f l) ≤ List.length l)%nat.
Proof.
  induction l as [| x l IH]; [done |]. cbn [List.filter].
  destruct (f x); cbn [List.length]; lia.
Qed.

(** X7.  A text yields no word at all exactly when it is made of white
    space and commas only (the empty text among them), and a text never
    yields more words than it has commas, plus one: ten words need at least
    nine commas. *)
Theorem parseWords_count raw :
  (parseWords raw = [] ↔ blank raw = true) ∧
  (List.length (parseWords raw) ≤ S (commas raw))%nat.
Proof.
  split.
  - rewrite blank_split. unfold parseWords.
    induction (JS.split "," raw) as [| p ps IH]; [done |].
    cbn [List.map List.filter forallb].
    destruct (JS.Boolean (JS.trim p)) eqn:Hb.
    + split; [discriminate |]. intros H. apply andb_true_iff in H as [Hp _].
      apply trim_empty_iff in Hp. congruence.
    + apply trim_empty_iff in Hb. by rewrite Hb.
  - unfold parseWords. rewrite <- split_length.
    etrans; [apply filter_length_le |]. by rewrite length_map.
Qed.

(** ** Clipboard feedback *)

(** A commit under unchanged context values and phase runs no effect. *)
Lemma commit_same w st out :
  isCreating st = isCreating (comp w) →
  commit w (ctx w) st out =
    {| ctx := ctx w; comp := st; timers := timers w ++ scheduled out;
       mounted := mounted w; calls := calls w ++ out |}.
Proof.
  intros H. unfold commit. rewrite flushEffects_same_ctx.
  rewrite bool_decide_eq_true_2 by done. by rewrite !app_nil_r.
Qed.

Lemma step_CopyLink w rid :
  mounted w = true → roomId (ctx w) = Some rid → rid ≠ "" →
  step w CopyLink =
    Some {| ctx := ctx w; comp := setCopied true (comp w);
            timers := timers w ++ [(ResetCopied, 2000)];
            mounted := true;
            calls := calls w ++
              [ClipboardWriteText (origin (ctx w) +:+ "/room/" +:+ rid);
               SetTimeout ResetCopied 2000] |}.
Proof.
  intros Hm Hrid Hne. unfold step, copyRoomLink. rewrite Hm, Hrid.
  destruct rid; [congruence |]. cbn [negb JS.Boolean].
  rewrite commit_same by reflexivity. by rewrite Hm.
Qed.

Lemma step_CopyCode w rid :
  mounted w = true → roomId (ctx w) = Some rid → rid ≠ "" →
  step w CopyCode =
    Some {| ctx := ctx w; comp := setCodeCopied true (comp w);
            timers := timers w ++ [(ResetCodeCopied, 2000)];
            mounted := true;
            calls := calls w ++
              [ClipboardWriteText rid; SetTimeout ResetCodeCopied 2000] |}.
Proof.
  intros Hm Hrid Hne. unfold step, copyRoomCode. rewrite Hm, Hrid.
  destruct rid; [congruence |]. cbn [negb JS.Boolean].
  rewrite commit_same by reflexivity. by rewrite Hm.
Qed.

Lemma step_Timeout_middle w l cb ms l' :
  timers w = l ++ (cb, ms) :: l' →
  step w (Timeout (List.length l)) =
    Some {| ctx := ctx w;
            comp := if mounted w then runCallback cb (comp w) else comp w;
            timers := l ++ l'; mounted := mounted w; calls := calls w |}.
Proof.
  intros Ht. unfold step. rewrite Ht.
  rewrite list_lookup_middle by reflexivity. by rewrite delete_middle.
Qed.

(** X8.  With a non-empty room id known, copying the link (or the code)
    writes the text to the clipboard, raises its own flag and schedules one
    2000 ms timer behind those already pending; when that timer expires the
    flag is down again, the pending timers are the earlier ones, and nothing
    else of the state has changed: in particular the other flag is never
    touched. *)
Theorem copy_feedback_expires w rid :
  mounted w = true → roomId (ctx w) = Some rid → rid ≠ "" →
  (∃ w1 w2,
     step w CopyLink = Some w1 ∧
     comp w1 = setCopied true (comp w) ∧
     timers w1 = timers w ++ [(ResetCopied, 2000)] ∧
     calls w1 = calls w ++
       [ClipboardWriteText (origin (ctx w) +:+ "/room/" +:+ rid);
        SetTimeout ResetCopied 2000] ∧
     step w1 (Timeout (List.length (timers w))) = Some w2 ∧
     comp w2 = setCopied false (comp w) ∧
     timers w2 = timers w ∧ calls w2 = calls w1) ∧
  (∃ w1 w2,
     step w CopyCode = Some w1 ∧
     comp w1 = setCodeCopied true (comp w) ∧
     timers w1 = timers w ++ [(ResetCodeCopied, 2000)] ∧
     calls w1 = calls w ++
       [ClipboardWriteText rid; SetTimeout ResetCodeCopied 2000] ∧
     step w1 (Timeout (List.length (timers w))) = Some w2 ∧
     comp w2 = setCodeCopied false (comp w) ∧
     timers w2 = timers w ∧ calls w2 = calls w1).
Proof.
  intros Hm Hrid Hne. split.
  - eexists _, _. split; [by apply step_CopyLink |].
    cbn [comp timers calls].
    repeat (split; [reflexivity |]).
    split; [by apply (step_Timeout_middle _ (timers w) ResetCopied 2000 []) |].
    cbn [comp timers calls mounted runCallback].
    by rewrite app_nil_r.
  - eexists _, _. split; [by apply step_CopyCode |].
    cbn [comp timers calls].
    repeat (split; [reflexivity |]).
    split;
      [by apply (step_Timeout_middle _ (timers w) ResetCodeCopied 2000 []) |].
    cbn [comp timers calls mounted runCallback].
    by rewrite app_nil_r.
Qed.

Lemma copy_feedback_expires_witness :
  mounted (mount (hostEnv (Some "ABCD12") true)) = true ∧
  roomId (ctx (mount (hostEnv (Some "ABCD12") true))) = Some "ABCD12" ∧
  "ABCD12" ≠ "" ∧
  ∃ w1 w2,
    step (mount (hostEnv (Some "ABCD12") true)) CopyLink = Some w1 ∧
    step w1 (Timeout 0%nat) = Some w2 ∧
    comp w2 = setCopied false initialState.
Proof.
  split; [reflexivity |]. split; [reflexivity |]. split; [discriminate |].
  destruct (copy_feedback_expires (mount (hostEnv (Some "ABCD12") true))
              "ABCD12" eq_refl eq_refl ltac:(discriminate))
    as [(w1 & w2 & H1 & _ & _ & _ & H2 & H3 & _) _].
  exists w1, w2. repeat split; assumption.
Defined.

(** X9.  A second copy does not restart the timer of the first: both stay
    pending, and when the first expires the flag goes down although the
    second copy is less than 2000 ms old; the second timer is still
    pending then. *)
Theorem second_copy_keeps_first_timer w rid :
  mounted w = true → roomId (ctx w) = Some rid → rid ≠ "" →
  ∃ w2 w3,
    run w [CopyLink; CopyLink] = Some w2 ∧
    copied (comp w2) = true ∧
    timers w2 = timers w ++ [(ResetCopied, 2000); (ResetCopied, 2000)] ∧
    step w2 (Timeout (List.length (timers w))) = Some w3 ∧
    copied (comp w3) = false ∧
    timers w3 = timers w ++ [(ResetCopied, 2000)].
Proof.
  intros Hm Hrid Hne. eexists _, _. split.
  { cbn [run]. rewrite (step_CopyLink w rid Hm Hrid Hne).
    erewrite (step_CopyLink _ rid);
      [reflexivity | reflexivity | exact Hrid | exact Hne]. }
  cbn [comp timers]. split; [reflexivity |].
  split; [by rewrite <- app_assoc |].
  split.
  { apply (step_Timeout_middle _ (timers w) ResetCopied 2000
             [(ResetCopied, 2000)]).
    cbn [timers]. by rewrite <- app_assoc. }
  split; reflexivity.
Qed.

Lemma second_copy_keeps_first_timer_witness :
  ∃ w2 w3,
    run (mount (hostEnv (Some "ABCD12") true)) [CopyLink; CopyLink] = Some w2 ∧
    step w2 (Timeout 0%nat) = Some w3 ∧
    copied (comp w3) = false ∧
    timers w3 = [(ResetCopied, 2000)].
Proof.
  destruct (second_copy_keeps_first_timer
              (mount (hostEnv (Some "ABCD12") true)) "ABCD12"
              eq_refl eq_refl ltac:(discriminate))
    as (w2 & w3 & H1 & _ & _ & H2 & H3 & H4).
  exists w2, w3. repeat split; assumption.
Defined.

(** ** Requests and navigations over a session *)

Lemma createRequests_app out1 out2 :
  createRequests (out1 ++ out2) = createRequests out1 ++ createRequests out2.
Proof. apply List.filter_app. Qed.

Lemma createRequests_flushEffects old e st :
  createRequests (flushEffects old e st).2 = [].
Proof.
  unfold flushEffects.
  generalize (match old with
              | Some (e0, _) => negb (bool_decide (player e0 = player e))
              | None => true
              end).
  generalize (match old with
              | Some (e0, st0) =>
                  negb (bool_decide (roomId e0 = roomId e)
                        && bool_decide (isCreating st0 = isCreating st))
              | None => true
              end).
  intros run_room run_player.
  assert (Hp : createRequests (if run_player then playerEffect e else []) = []).
  { destruct run_player; [| reflexivity].
    unfold playerEffect. by destruct (player e). }
  assert (Hr : createRequests (roomEffect e st).2 = []).
  { unfold roomEffect. destruct (roomId e) as [rid |]; [| reflexivity].
    by destruct (JS.Boolean rid && isCreating st). }
  destruct run_room; [destruct (roomEffect e st) as [st2 out2] |];
    cbn [fst snd] in *; by rewrite createRequests_app, Hp, ?Hr.
Qed.

Lemma commit_requests w e st out :
  createRequests (calls (commit w e st out)) =
  createRequests (calls w) ++ createRequests out.
Proof.
  unfold commit.
  pose proof (createRequests_flushEffects (Some (ctx w, comp w)) e st) as Hf.
  destruct (flushEffects (Some (ctx w, comp w)) e st) as [st' out'].
  cbn [snd calls] in *. by rewrite !createRequests_app, Hf, app_nil_r.
Qed.

Lemma commit_budget_gen w e st out :
  budget (commit w e st out) =
  (List.length (roomNavigations (calls w))
   + List.length (roomNavigations out)
   + (if isCreating st then 1 else 0))%nat.
Proof.
  unfold commit, budget.
  pose proof (flushEffects_budget (Some (ctx w, comp w)) e st) as Hf.
  destruct (flushEffects (Some (ctx w, comp w)) e st) as [st' out'].
  cbn [fst snd calls comp] in *.
  rewrite !roomNavigations_app, !length_app. lia.
Qed.

(** What a click on the create button can do to the state. *)
Lemma clickCreate_cases e st st' out :
  clickCreate e st = Some (st', out) →
  settings st' = settings st ∧
  ((out = [] ∧ isCreating st' = isCreating st) ∨
   (isCreating st = false ∧ isCreating st' = true ∧
    ∃ payload, out = [ConsoleLog "Creating room with settings:";
                      CreateRoom payload])).
Proof.
  unfold clickCreate, createDisabled.
  destruct (formRendered e && negb (isCreating st || negb (connected e)))
    eqn:Hgo; [| intros [= <- <-]; eauto].
  apply andb_true_iff in Hgo as [_ Hen]. apply negb_true_iff in Hen.
  apply orb_false_iff in Hen as [Hidle _].
  rewrite handleCreateRoom_unfold.
  destruct (newErrors (settings st)) as [errs |]; [| discriminate].
  destruct (bool_decide (size errs = 0%nat) && connected e).
  - destruct (get_string (settings st) "customWords"); [| discriminate].
    intros [= <- <-]. split; [reflexivity |]. right. eauto.
  - intros [= <- <-]. split; [reflexivity |]. left. eauto.
Qed.

Lemma step_requests w ev w' :
  not_create ev = true →
  step w ev = Some w' →
  createRequests (calls w') = createRequests (calls w).
Proof.
  intros Hev Hstep. destruct ev; try discriminate; unfold step in Hstep;
    try (destruct (mounted w); cbn [negb] in Hstep;
         [| by injection Hstep as <-]).
  - destruct (formRendered (ctx w) && is_input t); injection Hstep as <-;
      [| reflexivity].
    by rewrite commit_requests, app_nil_r.
  - destruct (bool_decide _); injection Hstep as <-; [| reflexivity].
    by rewrite commit_requests, app_nil_r.
  - injection Hstep as <-. by rewrite commit_requests, app_nil_r.
  - assert (Hc : createRequests (copyRoomLink (ctx w) (comp w)).2 = []).
    { unfold copyRoomLink. destruct (roomId (ctx w)) as [rid |]; [| done].
      by destruct (JS.Boolean rid). }
    destruct (copyRoomLink (ctx w) (comp w)) as [st out]. cbn [snd] in Hc.
    injection Hstep as <-. by rewrite commit_requests, Hc, app_nil_r.
  - assert (Hc : createRequests (copyRoomCode (ctx w) (comp w)).2 = []).
    { unfold copyRoomCode. destruct (roomId (ctx w)) as [rid |]; [| done].
      by destruct (JS.Boolean rid). }
    destruct (copyRoomCode (ctx w) (comp w)) as [st out]. cbn [snd] in Hc.
    injection Hstep as <-. by rewrite commit_requests, Hc, app_nil_r.
  - destruct (timers w !! i) as [[cb ms] |]; by injection Hstep as <-.
  - by injection Hstep as <-.
Qed.

Lemma step_requests_budget w ev w' :
  step w ev = Some w' →
  List.length (createRequests (calls w)) = budget w →
  List.length (createRequests (calls w')) = budget w'.
Proof.
  intros Hstep Hinv. destruct (not_create ev) eqn:Hev.
  - destruct (step_budget w ev Hev) as (w1 & Hstep1 & Hb).
    rewrite Hstep in Hstep1. injection Hstep1 as <-.
    by rewrite (step_requests w ev w' Hev Hstep), Hb.
  - destruct ev; try discriminate. unfold step in Hstep.
    destruct (mounted w); cbn [negb] in Hstep; [| by injection Hstep as <-].
    destruct (clickCreate (ctx w) (comp w)) as [[st out] |] eqn:Hclick;
      [| discriminate].
    cbn [mbind option_bind] in Hstep. injection Hstep as <-.
    rewrite commit_requests, commit_budget_gen, length_app, Hinv.
    unfold budget.
    destruct (clickCreate_cases _ _ _ _ Hclick)
      as [_ [[-> ->] | (Hidle & -> & payload & ->)]].
    + cbn. lia.
    + rewrite Hidle. cbn. lia.
Qed.

(** X10.  On every page reached from a mount, whatever the events, the
    number of creation requests sent equals the number of navigations into a
    room made, plus one while a confirmation is awaited: a request is never
    answered by two navigations, a navigation never happens without a
    request, and the phase is AwaitingConfirmation only with a request still
    unanswered. *)
Theorem requests_match_navigations e evs :
  ∃ w, run (mount e) evs = Some w ∧
    List.length (createRequests (calls w)) =
    (List.length (roomNavigations (calls w))
     + (if isCreating (comp w) then 1 else 0))%nat.
Proof.
  destruct (run_total e evs) as (w & Hrun & _). exists w.
  split; [assumption |]. fold (budget w).
  assert (H0 : List.length (createRequests (calls (mount e)))
               = budget (mount e)).
  { unfold mount, flushEffects, budget.
    rewrite (roomEffect_idle e initialState eq_refl). cbn.
    rewrite app_nil_r. unfold playerEffect. by destruct (player e). }
  revert H0 Hrun. generalize (mount e). clear e.
  induction evs as [| ev evs IH]; intros w0 H0 Hrun; cbn [run] in Hrun.
  - by injection Hrun as <-.
  - destruct (step w0 ev) as [w1 |] eqn:Hstep; [| discriminate].
    eapply IH; [| exact Hrun]. by eapply step_requests_budget.
Qed.

Lemma commit_ctx w e st out : ctx (commit w e st out) = e.
Proof.
  unfold commit. by destruct (flushEffects (Some (ctx w, comp w)) e st).
Qed.

Lemma commit_comp_falsy w e st out :
  JS.truthy (roomId e) = false → comp (commit w e st out) = st.
Proof.
  intros Hf. unfold commit, flushEffects. rewrite (roomEffect_falsy e st Hf).
  by destruct (negb _).
Qed.

Lemma step_awaiting w ev :
  isCreating (comp w) = true →
  JS.truthy (roomId (ctx w)) = false →
  no_room_id ev = true →
  ∃ w', step w ev = Some w' ∧
        isCreating (comp w') = true ∧
        JS.truthy (roomId (ctx w')) = false ∧
        createRequests (calls w') = createRequests (calls w).
Proof.
  intros Hcr Hrid Hev.
  destruct (not_create ev) eqn:Hnc.
  - destruct (step_budget w ev Hnc) as (w' & Hstep & _).
    exists w'. split; [assumption |].
    split; [| split; [| by apply (step_requests w ev)]];
      destruct ev; try discriminate; unfold step in Hstep;
      try (destruct (mounted w); cbn [negb] in Hstep;
           [| by injection Hstep as <-]).
    + destruct (formRendered (ctx w) && is_input t); injection Hstep as <-;
        [| assumption].
      rewrite commit_comp_falsy by assumption.
      by rewrite (proj1 (handleInputChange_flags t (comp w))).
    + destruct (bool_decide _); injection Hstep as <-; [| assumption].
      by rewrite commit_comp_falsy.
    + injection Hstep as <-. cbn [no_room_id] in Hev.
      apply negb_true_iff in Hev. by rewrite commit_comp_falsy.
    + pose proof (copyRoomLink_quiet (ctx w) (comp w)) as [_ H2].
      destruct (copyRoomLink (ctx w) (comp w)) as [st out]. cbn [fst] in H2.
      injection Hstep as <-. rewrite commit_comp_falsy by assumption.
      congruence.
    + pose proof (copyRoomCode_quiet (ctx w) (comp w)) as [_ H2].
      destruct (copyRoomCode (ctx w) (comp w)) as [st out]. cbn [fst] in H2.
      injection Hstep as <-. rewrite commit_comp_falsy by assumption.
      congruence.
    + destruct (timers w !! i) as [[cb ms] |]; injection Hstep as <-;
        [| assumption].
      cbn [comp]. destruct (mounted w); [| assumption].
      by rewrite runCallback_isCreating.
    + by injection Hstep as <-.
    + destruct (formRendered (ctx w) && is_input t); injection Hstep as <-;
        [| assumption].
      by rewrite commit_ctx.
    + destruct (bool_decide _); injection Hstep as <-; [| assumption].
      by rewrite commit_ctx.
    + injection Hstep as <-. cbn [no_room_id] in Hev.
      apply negb_true_iff in Hev. by rewrite commit_ctx.
    + destruct (copyRoomLink (ctx w) (comp w)) as [st out].
      injection Hstep as <-. by rewrite commit_ctx.
    + destruct (copyRoomCode (ctx w) (comp w)) as [st out].
      injection Hstep as <-. by rewrite commit_ctx.
    + destruct (timers w !! i) as [[cb ms] |]; by injection Hstep as <-.
    + by injection Hstep as <-.
  - destruct ev; try discriminate. exists w.
    split; [| by repeat split].
    apply step_ClickCreate_disabled. unfold createDisabled. by rewrite Hcr.
Qed.

(** X11.  Nothing but a usable room id ends the wait: while a confirmation
    is awaited and every room id delivered is null or empty, every event is
    handled, the phase stays AwaitingConfirmation however long the sequence
    (so the create button stays disabled), and no further request is sent.
    The page has no timeout or failure path of its own. *)
Theorem awaiting_persists evs : ∀ w,
  isCreating (comp w) = true →
  JS.truthy (roomId (ctx w)) = false →
  forallb no_room_id evs = true →
  ∃ w', run w evs = Some w' ∧
        isCreating (comp w') = true ∧
        createDisabled (ctx w') (comp w') = true ∧
        createRequests (calls w') = createRequests (calls w).
Proof.
  induction evs as [| ev evs IH]; intros w Hcr Hrid Hevs.
  - exists w. repeat split; try done. unfold createDisabled. by rewrite Hcr.
  - cbn [forallb] in Hevs. apply andb_true_iff in Hevs as [Hev Hevs].
    destruct (step_awaiting w ev Hcr Hrid Hev)
      as (w1 & Hstep & Hcr1 & Hrid1 & Hreq1).
    destruct (IH w1 Hcr1 Hrid1 Hevs) as (w' & Hrun & Hcr' & Hdis & Hreq').
    exists w'. cbn [run]. rewrite Hstep. repeat split; congruence.
Qed.

(** The host keeps clicking, edits a field and loses the connection while
    no room id arrives. *)
Lemma awaiting_persists_witness :
  ∃ w', run awaitingWorld
          [ClickCreate; Change (numberInput "drawTime" "90");
           Context (hostEnv None false); Context (hostEnv (Some "") true);
           ClickCreate] = Some w' ∧
        isCreating (comp w') = true ∧
        createDisabled (ctx w') (comp w') = true ∧
        createRequests (calls w') = createRequests (calls awaitingWorld).
Proof.
  apply (awaiting_persists _ awaitingWorld); reflexivity.
Defined.

(** ** What each event can change *)

Lemma step_settings w ev w' :
  is_change ev = false →
  step w ev = Some w' →
  settings (comp w') = settings (comp w).
Proof.
  intros Hev Hstep. destruct ev; try discriminate; unfold step in Hstep;
    try (destruct (mounted w); cbn [negb] in Hstep;
         [| by injection Hstep as <-]).
  - destruct (clickCreate (ctx w) (comp w)) as [[st out] |] eqn:Hclick;
      [| discriminate].
    cbn [mbind option_bind] in Hstep. injection Hstep as <-.
    rewrite commit_settings. by apply (clickCreate_cases _ _ _ _ Hclick).
  - destruct (bool_decide _); injection Hstep as <-; [| reflexivity].
    by rewrite commit_settings.
  - injection Hstep as <-. by rewrite commit_settings.
  - assert (Hs : settings (copyRoomLink (ctx w) (comp w)).1 = settings (comp w)).
    { unfold copyRoomLink. destruct (roomId (ctx w)) as [rid |]; [| done].
      by destruct (JS.Boolean rid). }
    destruct (copyRoomLink (ctx w) (comp w)) as [st out]. cbn [fst] in Hs.
    injection Hstep as <-. by rewrite commit_settings.
  - assert (Hs : settings (copyRoomCode (ctx w) (comp w)).1 = settings (comp w)).
    { unfold copyRoomCode. destruct (roomId (ctx w)) as [rid |]; [| done].
      by destruct (JS.Boolean rid). }
    destruct (copyRoomCode (ctx w) (comp w)) as [st out]. cbn [fst] in Hs.
    injection Hstep as <-. by rewrite commit_settings.
  - destruct (timers w !! i) as [[cb ms] |]; injection Hstep as <-;
      [| reflexivity].
    cbn [comp]. destruct (mounted w); [| reflexivity]. by destruct cb.
  - by injection Hstep as <-.
Qed.

Lemma step_errors_subseteq w ev w' :
  not_create ev = true →
  step w ev = Some w' →
  errors (comp w') ⊆ errors (comp w).
Proof.
  intros Hev Hstep. destruct ev; try discriminate; unfold step in Hstep;
    try (destruct (mounted w); cbn [negb] in Hstep;
         [| by injection Hstep as <-]).
  - destruct (formRendered (ctx w) && is_input t); injection Hstep as <-;
      [| reflexivity].
    rewrite commit_errors, handleInputChange_errors.
    destruct (JS.truthy _); [apply delete_subseteq | reflexivity].
  - destruct (bool_decide _); injection Hstep as <-; [| reflexivity].
    by rewrite commit_errors.
  - injection Hstep as <-. by rewrite commit_errors.
  - assert (Hs : errors (copyRoomLink (ctx w) (comp w)).1 = errors (comp w)).
    { unfold copyRoomLink. destruct (roomId (ctx w)) as [rid |]; [| done].
      by destruct (JS.Boolean rid). }
    destruct (copyRoomLink (ctx w) (comp w)) as [st out]. cbn [fst] in Hs.
    injection Hstep as <-. by rewrite commit_errors, Hs.
  - assert (Hs : errors (copyRoomCode (ctx w) (comp w)).1 = errors (comp w)).
    { unfold copyRoomCode. destruct (roomId (ctx w)) as [rid |]; [| done].
      by destruct (JS.Boolean rid). }
    destruct (copyRoomCode (ctx w) (comp w)) as [st out]. cbn [fst] in Hs.
    injection Hstep as <-. by rewrite commit_errors, Hs.
  - destruct (timers w !! i) as [[cb ms] |]; injection Hstep as <-;
      [| reflexivity].
    cbn [comp]. destruct (mounted w); [| reflexivity]. by destruct cb.
  - by injection Hstep as <-.
Qed.

(** X12.  Only an edit changes the settings, and only a click on the create
    button can add an error message: over any run without an input change
    the settings at the end are those at the start, and over any run without
    a create click the error mapping at the end is a part of the one at the
    start (edits take messages away, nothing else touches them). *)
Theorem settings_and_errors_frame evs : ∀ w w',
  run w evs = Some w' →
  (forallb (λ ev, negb (is_change ev)) evs = true →
     settings (comp w') = settings (comp w)) ∧
  (forallb not_create evs = true →
     errors (comp w') ⊆ errors (comp w)).
Proof.
  induction evs as [| ev evs IH]; intros w w' Hrun; cbn [run] in Hrun.
  - injection Hrun as <-. by split.
  - destruct (step w ev) as [w1 |] eqn:Hstep; [| discriminate].
    destruct (IH w1 w' Hrun) as [IHs IHe]. cbn [forallb]. split.
    + intros H. apply andb_true_iff in H as [Hev Hevs].
      apply negb_true_iff in Hev.
      rewrite (IHs Hevs). by apply (step_settings w ev).
    + intros H. apply andb_true_iff in H as [Hev Hevs].
      etrans; [by apply IHe |]. by apply (step_errors_subseteq w ev).
Qed.

(** The teardown of the page that holds a copied link. *)
Lemma settings_and_errors_frame_witness :
  run copiedWorld [Unmount] = Some tornDownWorld ∧
  settings (comp tornDownWorld) = settings (comp copiedWorld) ∧
  errors (comp tornDownWorld) ⊆ errors (comp copiedWorld).
Proof.
  assert (Hrun : run copiedWorld [Unmount] = Some tornDownWorld)
    by reflexivity.
  split; [exact Hrun |].
  destruct (settings_and_errors_frame [Unmount] copiedWorld tornDownWorld Hrun)
    as [Hs He].
  split; [apply Hs | apply He]; reflexivity.
Defined.

(** ** Without a player or a connection *)

Lemma step_hidden w ev :
  formRendered (ctx w) = false →
  keeps_form_hidden ev = true →
  ∃ w', step w ev = Some w' ∧
        formRendered (ctx w') = false ∧
        settings (comp w') = settings (comp w) ∧
        errors (comp w') = errors (comp w) ∧
        createRequests (calls w') = createRequests (calls w).
Proof.
  intros Hform Hev. destruct ev.
  - exists w. split; [| done]. unfold step. rewrite Hform.
    by destruct (mounted w).
  - exists w. split; [| done]. unfold step, clickCreate. rewrite Hform.
    destruct (mounted w); cbn [negb andb mbind option_bind]; [| done].
    by rewrite commit_nothing.
  - destruct (step_budget w ClickBack eq_refl) as (w' & Hstep & _).
    exists w'. split; [assumption |].
    split; [| split; [by apply (step_settings w ClickBack) |
              split; [| by apply (step_requests w ClickBack)]]];
      unfold step in Hstep; (destruct (mounted w); cbn [negb] in Hstep;
                             [| by injection Hstep as <-]);
      (destruct (bool_decide _); injection Hstep as <-; [| done]).
    + by rewrite commit_ctx.
    + by rewrite commit_errors.
  - cbn [keeps_form_hidden] in Hev. apply negb_true_iff in Hev.
    destruct (step_budget w (Context e) eq_refl) as (w' & Hstep & _).
    exists w'. split; [assumption |].
    split; [| split; [by apply (step_settings w (Context e)) |
              split; [| by apply (step_requests w (Context e))]]];
      unfold step in Hstep; (destruct (mounted w); cbn [negb] in Hstep;
                             [| by injection Hstep as <-]);
      injection Hstep as <-.
    + by rewrite commit_ctx.
    + by rewrite commit_errors.
  - destruct (step_budget w CopyLink eq_refl) as (w' & Hstep & _).
    exists w'. split; [assumption |].
    split; [| split; [by apply (step_settings w CopyLink) |
              split; [| by apply (step_requests w CopyLink)]]];
      unfold step in Hstep; (destruct (mounted w); cbn [negb] in Hstep;
                             [| by injection Hstep as <-]).
    + destruct (copyRoomLink (ctx w) (comp w)) as [st out].
      injection Hstep as <-. by rewrite commit_ctx.
    + assert (Hs : errors (copyRoomLink (ctx w) (comp w)).1 = errors (comp w)).
      { unfold copyRoomLink. destruct (roomId (ctx w)) as [rid |]; [| done].
        by destruct (JS.Boolean rid). }
      destruct (copyRoomLink (ctx w) (comp w)) as [st out]. cbn [fst] in Hs.
      injection Hstep as <-. by rewrite commit_errors.
  - destruct (step_budget w CopyCode eq_refl) as (w' & Hstep & _).
    exists w'. split; [assumption |].
    split; [| split; [by apply (step_settings w CopyCode) |
              split; [| by apply (step_requests w CopyCode)]]];
      unfold step in Hstep; (destruct (mounted w); cbn [negb] in Hstep;
                             [| by injection Hstep as <-]).
    + destruct (copyRoomCode (ctx w) (comp w)) as [st out].
      injection Hstep as <-. by rewrite commit_ctx.
    + assert (Hs : errors (copyRoomCode (ctx w) (comp w)).1 = errors (comp w)).
      { unfold copyRoomCode. destruct (roomId (ctx w)) as [rid |]; [| done].
        by destruct (JS.Boolean rid). }
      destruct (copyRoomCode (ctx w) (comp w)) as [st out]. cbn [fst] in Hs.
      injection Hstep as <-. by rewrite commit_errors.
  - destruct (step_budget w (Timeout i) eq_refl) as (w' & Hstep & _).
    exists w'. split; [assumption |].
    split; [| split; [by apply (step_settings w (Timeout i)) |
              split; [| by apply (step_requests w (Timeout i))]]];
      unfold step in Hstep;
      (destruct (timers w !! i) as [[cb ms] |]; injection Hstep as <-;
       [| done]); cbn [ctx comp]; [done |].
    destruct (mounted w); [| done]. by destruct cb.
  - exists (if mounted w
            then {| ctx := ctx w; comp := comp w; timers := timers w;
                    mounted := false; calls := calls w |}
            else w).
    unfold step. by destruct (mounted w).
Qed.

(** X13.  While there is no player or no connection the form is not on
    screen, and then nothing the user or the timers do can change the
    settings, change the error messages or send a creation request; every
    such event is handled. *)
Theorem hidden_form_is_inert evs : ∀ w,
  formRendered (ctx w) = false →
  forallb keeps_form_hidden evs = true →
  ∃ w', run w evs = Some w' ∧
        settings (comp w') = settings (comp w) ∧
        errors (comp w') = errors (comp w) ∧
        createRequests (calls w') = createRequests (calls w).
Proof.
  induction evs as [| ev evs IH]; intros w Hform Hevs; [by exists w |].
  cbn [forallb] in Hevs. apply andb_true_iff in Hevs as [Hev Hevs].
  destruct (step_hidden w ev Hform Hev) as (w1 & Hstep & Hform1 & Hs & He & Hr).
  destruct (IH w1 Hform1 Hevs) as (w' & Hrun & Hs' & He' & Hr').
  exists w'. cbn [run]. rewrite Hstep. repeat split; congruence.
Qed.

(** A disconnected host types, clicks and waits. *)
Lemma hidden_form_is_inert_witness :
  ∃ w', run (mount (hostEnv None false))
          [Change (numberInput "totalPlayers" "1"); ClickCreate;
           Context (lostEnv None); ClickCreate; ClickBack] = Some w' ∧
        settings (comp w') = settings (comp (mount (hostEnv None false))) ∧
        errors (comp w') = errors (comp (mount (hostEnv None false))) ∧
        createRequests (calls w') =
          createRequests (calls (mount (hostEnv None false))).
Proof.
  apply (hidden_form_is_inert _ (mount (hostEnv None false))); reflexivity.
Defined.

(** ** Pages reached from a mount *)

(** X14.  From a mount, whatever the context values and whatever the
    events, the page handles every event, and the settings keep the types
    they were declared with: the five numeric fields hold numbers, the flag a
    boolean, the words a string, although the handler writes under whatever
    name the input carries.  The validator therefore always returns, and
    every message on display is a non-empty text. *)
Theorem reachable_pages_well_typed e evs :
  ∃ w, run (mount e) evs = Some w ∧
    well_typed (settings (comp w)) ∧
    errors_truthy (errors (comp w)) ∧
    ∃ errs valid,
      validateSettings (comp w) = Some (valid, setErrors (λ _, errs) (comp w)).
Proof.
  destruct (run_total e evs) as (w & Hrun & Hwt). exists w.
  split; [assumption |]. split; [assumption |].
  split; [by apply (run_errors_truthy e evs) |].
  apply well_typed_typed_as in Hwt
    as (tp & dt & tr & wc & hc & cwo & cw & Hty).
  destruct (newErrors_lookup _ _ _ _ _ _ _ _ Hty) as (errs & Hnew & _).
  exists errs, (bool_decide (size errs = 0%nat)).
  by apply validateSettings_newErrors.
Qed.

(** ** Numbers typed into a field *)

Lemma parse_digits_step radix c r acc dv :
  JS.digit_value c = Some dv → (dv <? radix) = true →
  JS.parse_digits radix (String c r) acc =
  JS.parse_digits radix r (Some (radix * default 0 acc + dv)).
Proof. intros Hc Hlt. cbn [JS.parse_digits]. by rewrite Hc, Hlt. Qed.

Lemma parse_digits_numeral d : ∀ a suffix,
  ends_number suffix = true →
  JS.parse_digits 10 (DecimalString.NilEmpty.string_of_uint d +:+ suffix)
    (Some a) = Some (uint_value d a).
Proof.
  induction d as [| d IH | d IH | d IH | d IH | d IH | d IH | d IH | d IH
                  | d IH | d IH];
    intros a suffix Hend;
    cbn [DecimalString.NilEmpty.string_of_uint uint_value];
    try (rewrite append_cons;
         erewrite parse_digits_step by reflexivity; by apply IH).
  rewrite append_nil. destruct suffix as [| c r]; [reflexivity |].
  cbn [ends_number] in Hend. apply andb_true_iff in Hend as [_ Hend].
  cbn [JS.parse_digits]. destruct (JS.digit_value c) as [dv |]; [| reflexivity].
  apply Z.leb_le in Hend. destruct (Z.ltb_spec dv 10); [lia | reflexivity].
Qed.

Lemma of_uint_acc_value d : ∀ acc,
  Z.pos (Pos.of_uint_acc d acc) = uint_value d (Z.pos acc).
Proof.
  induction d; intros acc; cbn [Pos.of_uint_acc uint_value];
    [reflexivity | rewrite IHd; f_equal; lia ..].
Qed.

Lemma of_uint_value d : Z.of_N (Pos.of_uint d) = uint_value d 0.
Proof.
  induction d; cbn [Pos.of_uint uint_value Z.of_N];
    [reflexivity | exact IHd | apply of_uint_acc_value ..].
Qed.

Lemma parseInt_zero_then suffix :
  ends_number suffix = true →
  JS.parseInt (String "0" suffix) = Num 0 ∧
  JS.parseInt (String "-" (String "0" suffix)) = Num 0.
Proof.
  destruct suffix as [| c r]; [by split |]. intros Hend.
  destruct c as [[] [] [] [] [] [] [] []];
    first [discriminate Hend | split; reflexivity].
Qed.

Lemma parseInt_numeral d suffix :
  d ≠ Decimal.Nil →
  ends_number suffix = true →
  JS.parseInt (DecimalString.NilEmpty.string_of_uint d +:+ suffix)
    = Num (uint_value d 0) ∧
  JS.parseInt (String "-" (DecimalString.NilEmpty.string_of_uint d +:+ suffix))
    = Num (- uint_value d 0).
Proof.
  intros Hd Hend.
  assert (Hgo : ∀ c r dv,
    JS.digit_value c = Some dv → (dv <? 10) = true →
    (JS.parseInt (String c (DecimalString.NilEmpty.string_of_uint r +:+ suffix))
       = match JS.parse_digits 10
                 (String c (DecimalString.NilEmpty.string_of_uint r +:+ suffix))
                 None with
         | None => NaN
         | Some n => Num (1 * n)
         end) →
    (JS.parseInt
       (String "-"
          (String c (DecimalString.NilEmpty.string_of_uint r +:+ suffix)))
       = match JS.parse_digits 10
                 (String c (DecimalString.NilEmpty.string_of_uint r +:+ suffix))
                 None with
         | None => NaN
         | Some n => Num (-1 * n)
         end) →
    JS.parseInt (String c (DecimalString.NilEmpty.string_of_uint r +:+ suffix))
      = Num (uint_value r (10 * 0 + dv)) ∧
    JS.parseInt
      (String "-" (String c (DecimalString.NilEmpty.string_of_uint r +:+ suffix)))
      = Num (- uint_value r (10 * 0 + dv))).
  { intros c r dv Hc Hlt -> ->.
    rewrite (parse_digits_step 10 c _ None dv Hc Hlt).
    rewrite (parse_digits_numeral r _ suffix Hend). cbn [default].
    split; f_equal; lia. }
  destruct d as [| d | d | d | d | d | d | d | d | d | d]; [congruence | ..].
  - destruct d as [| d | d | d | d | d | d | d | d | d | d].
    + cbn [DecimalString.NilEmpty.string_of_uint uint_value].
      rewrite append_cons, append_nil. by apply parseInt_zero_then.
    + apply (Hgo "0"%char (Decimal.D0 d) 0); reflexivity.
    + apply (Hgo "0"%char (Decimal.D1 d) 0); reflexivity.
    + apply (Hgo "0"%char (Decimal.D2 d) 0); reflexivity.
    + apply (Hgo "0"%char (Decimal.D3 d) 0); reflexivity.
    + apply (Hgo "0"%char (Decimal.D4 d) 0); reflexivity.
    + apply (Hgo "0"%char (Decimal.D5 d) 0); reflexivity.
    + apply (Hgo "0"%char (Decimal.D6 d) 0); reflexivity.
    + apply (Hgo "0"%char (Decimal.D7 d) 0); reflexivity.
    + apply (Hgo "0"%char (Decimal.D8 d) 0); reflexivity.
    + apply (Hgo "0"%char (Decimal.D9 d) 0); reflexivity.
  - apply (Hgo "1"%char d 1); reflexivity.
  - apply (Hgo "2"%char d 2); reflexivity.
  - apply (Hgo "3"%char d 3); reflexivity.
  - apply (Hgo "4"%char d 4); reflexivity.
  - apply (Hgo "5"%char d 5); reflexivity.
  - apply (Hgo "6"%char d 6); reflexivity.
  - apply (Hgo "7"%char d 7); reflexivity.
  - apply (Hgo "8"%char d 8); reflexivity.
  - apply (Hgo "9"%char d 9); reflexivity.
Qed.

(** X15.  What a number field shows is read back as the same number: for
    every integer a double holds exactly, the decimal text shown for it, followed by nothing or by
    any text that does not continue the numeral (a decimal point and a
    fraction, an exponent, a unit), is parsed to that integer, and an edit
    with such a text stores it under the field's name.  A fraction typed
    after the integer part is dropped, not rounded. *)
Theorem number_input_round_trip z suffix :
  Z.abs z ≤ 9007199254740992 →
  ends_number suffix = true →
  JS.parseInt (numberToString z +:+ suffix) = Num z ∧
  ∀ field st,
    settings (handleInputChange
                (numberInput field (numberToString z +:+ suffix)) st)
      !! field = Some (VNum (Num z)).
Proof.
  intros _ Hend.
  assert (Hparse : JS.parseInt (numberToString z +:+ suffix) = Num z).
  { destruct z as [| p | p].
    - by apply parseInt_zero_then.
    - pose proof (DecimalPos.Unsigned.to_uint_nonnil p) as Hnil.
      pose proof (of_uint_value (Pos.to_uint p)) as Hval.
      rewrite DecimalPos.Unsigned.of_to in Hval. cbn [Z.of_N] in Hval.
      unfold numberToString. cbn [Z.to_int DecimalString.NilZero.string_of_int].
      unfold DecimalString.NilZero.string_of_uint.
      destruct (parseInt_numeral (Pos.to_uint p) suffix Hnil Hend) as [H _].
      destruct (Pos.to_uint p); [congruence | by rewrite H, <- Hval ..].
    - pose proof (DecimalPos.Unsigned.to_uint_nonnil p) as Hnil.
      pose proof (of_uint_value (Pos.to_uint p)) as Hval.
      rewrite DecimalPos.Unsigned.of_to in Hval. cbn [Z.of_N] in Hval.
      unfold numberToString. cbn [Z.to_int DecimalString.NilZero.string_of_int].
      unfold DecimalString.NilZero.string_of_uint. rewrite append_cons.
      destruct (parseInt_numeral (Pos.to_uint p) suffix Hnil Hend) as [_ H].
      destruct (Pos.to_uint p); [congruence | by rewrite H, <- Hval ..]. }
  split; [exact Hparse |].
  intros field st. rewrite handleInputChange_settings.
  cbn [name numberInput]. rewrite lookup_insert_eq.
  unfold coerced. cbn [type value numberInput String.eqb Ascii.eqb].
  cbn. by rewrite Hparse.
Qed.

(** Two and a half players are two players. *)
Lemma number_input_round_trip_witness :
  Z.abs 2 ≤ 9007199254740992 ∧
  ends_number ".5" = true ∧
  JS.parseInt (numberToString 2 +:+ ".5") = Num 2.
Proof.
  assert (H : Z.abs 2 ≤ 9007199254740992) by lia.
  split; [exact H |]. split; [reflexivity |].
  apply (proj1 (number_input_round_trip 2 ".5" H eq_refl)).
Defined.
